(** * Schema discovery of spanner-truncate: [truncate/table_schema.go]

    A shallow embedding of [fetchTableSchemas] and [fetchIndexSchemas]
    and the properties of the selection policy, of column decoding and of
    error propagation that the truncation planner relies on. *)

From Stdlib Require Import OrdersEx.
From stdpp Require Import gmap strings list fin_maps sorting.

(** ** Data model *)

(** [deleteActionType] is the action type on parent delete. *)
Inductive deleteActionType : Type :=
  | deleteActionUndefined      (* iota: the zero value *)
  | deleteActionCascadeDelete
  | deleteActionNoAction.

(** [tableSchema] represents table metadata and relationships. *)
Record tableSchema : Type := {
  tableName : string;
  parentTableName : string;
  parentOnDeleteAction : deleteActionType;
  referencedBy : list string
}.

(** [indexSchema] represents secondary index metadata.  Its third field is
    [parentTableName] in the source; the record lives in a module of its
    own because [tableSchema] already has a field of that name. *)
Module Index.
Record indexSchema : Type := {
  indexName : string;
  baseTableName : string;
  parentTableName : string
}.
End Index.
Export Index (indexSchema, indexName, baseTableName).

(** [spanner.NullString]: a nullable STRING column.  [Valid] is false for
    NULL; [StringVal] is meaningful only when [Valid] holds. *)
Record NullString : Type := {
  StringVal : string;
  Valid : bool
}.

(** ** The selection maps (lines 74-85) *)

(** [for _, t := range names { m[t] = true }] on a [map[string]bool]. *)
Definition markAll (names : list string) (m : gmap string bool) : gmap string bool :=
  foldl (fun acc t => <[t := true]> acc) m names.

(** The three locals [truncateAll], [targets] and [excludes] once the
    two loops have run. *)
Record selection : Type := {
  truncateAll : bool;
  targets : gmap string bool;
  excludes : gmap string bool
}.

Definition newSelection (targetTables excludeTables : list string) : selection :=
  if bool_decide (0 < length targetTables) || bool_decide (0 < length excludeTables)
  then {| truncateAll := false;
          targets := markAll targetTables ∅;
          excludes := markAll excludeTables ∅ |}
  else {| truncateAll := true; targets := ∅; excludes := ∅ |}.

(** [_, ok := m[k]]. *)
Definition commaOk (m : gmap string bool) (k : string) : bool :=
  match m !! k with
  | Some _ => true
  | None => false
  end.

(** Lines 99-109: [skipRow] is true exactly when the callback takes one of
    the two early [return nil] exits. *)
Definition skipRow (sel : selection) (name : string) : bool :=
  if negb (truncateAll sel) then
    if negb (bool_decide (size (excludes sel) = 0)) then
      if commaOk (excludes sel) name then true else false
    else
      if negb (commaOk (targets sel) name) then true else false
  else false.

(** ** Column normalisation (lines 111-124 and 158-161) *)

(** [var parentTableName string], set to [parent.StringVal] when
    [parent.Valid] holds. *)
Definition parentNameOf (parent : NullString) : string :=
  if Valid parent then StringVal parent else "".

(** [var typ deleteActionType], set by the [switch] on
    [deleteAction.StringVal] when [deleteAction.Valid] holds. *)
Definition deleteActionOf (deleteAction : NullString) : deleteActionType :=
  if Valid deleteAction then
    if String.eqb (StringVal deleteAction) "CASCADE" then deleteActionCascadeDelete
    else if String.eqb (StringVal deleteAction) "NO ACTION" then deleteActionNoAction
    else deleteActionUndefined
  else deleteActionUndefined.

(** The columns one catalog row of the table query decodes into:
    [tableName], [parent], [deleteAction], [referencedBy]. *)
Record tableColumns : Type := {
  colTableName : string;
  colParent : NullString;
  colDeleteAction : NullString;
  colReferencedBy : list string
}.

(** The columns of one row of the index query. *)
Record indexColumns : Type := {
  colIndexName : string;
  colBaseTableName : string;
  colIndexParent : NullString
}.

(** The struct literal of lines 126-131. *)
Definition newTableSchema (c : tableColumns) : tableSchema :=
  {| tableName := colTableName c;
     parentTableName := parentNameOf (colParent c);
     parentOnDeleteAction := deleteActionOf (colDeleteAction c);
     referencedBy := colReferencedBy c |}.

(** The struct literal of lines 163-167. *)
Definition newIndexSchema (c : indexColumns) : indexSchema :=
  {| indexName := colIndexName c;
     baseTableName := colBaseTableName c;
     Index.parentTableName := parentNameOf (colIndexParent c) |}.

(** ** The client library: rows, errors and the row iterator

    [spanner.Row], Go's [error] values and [Row.Columns] belong to the
    client library; the two functions are verified for every row type,
    every error type and every pair of column decoders. *)
Section Discovery.

Variable error : Type.
Variable Row : Type.

(** [r.Columns(&tableName, &parent, &deleteAction, &referencedBy)] *)
Variable tableRowColumns : Row -> error + tableColumns.

(** [r.Columns(&indexName, &baseTableName, &parent)] *)
Variable indexRowColumns : Row -> error + indexColumns.

(** What a query hands back: the rows [Next] yields in order, and how
    the stream ends, [None] for [iterator.Done] and [Some err] when the
    read fails (at once, when the query itself is rejected). *)
Record RowIterator : Type := {
  rows : list Row;
  final : option error
}.

(** [RowIterator.Do]: calls [f] on each row until the stream ends or
    [f] or [Next] returns an error.  [f] is a closure over a local of
    type [S], which is threaded through. *)
Fixpoint doRows {S : Type} (f : Row -> S -> option error * S)
    (rs : list Row) (fin : option error) (s : S) : option error * S :=
  match rs with
  | [] => (fin, s)
  | r :: rs' =>
      match f r s with
      | (None, s') => doRows f rs' fin s'
      | (Some err, s') => (Some err, s')
      end
  end.

Definition Do {S : Type} (iter : RowIterator)
    (f : Row -> S -> option error * S) (s : S) : option error * S :=
  doRows f (rows iter) (final iter) s.

(** ** [fetchTableSchemas] *)

(** The callback of lines 88-133, a closure over [tables]. *)
Definition tableRowFunc (sel : selection) (r : Row) (tables : list tableSchema)
    : option error * list tableSchema :=
  match tableRowColumns r with
  | inl err => (Some err, tables)
  | inr c =>
      if skipRow sel (colTableName c) then (None, tables)
      else (None, tables ++ [newTableSchema c])
  end.

(** The slice and the error the function returns; Go's nil slice is [[]]. *)
Definition fetchTableSchemas (iter : RowIterator)
    (targetTables excludeTables : list string)
    : list tableSchema * option error :=
  let sel := newSelection targetTables excludeTables in
  match Do iter (tableRowFunc sel) [] with
  | (Some err, _) => ([], Some err)
  | (None, tables) => (tables, None)
  end.

(** ** [fetchIndexSchemas] *)

(** The callback of lines 148-169, a closure over [indexes]. *)
Definition indexRowFunc (r : Row) (indexes : list indexSchema)
    : option error * list indexSchema :=
  match indexRowColumns r with
  | inl err => (Some err, indexes)
  | inr c => (None, indexes ++ [newIndexSchema c])
  end.

Definition fetchIndexSchemas (iter : RowIterator)
    : list indexSchema * option error :=
  match Do iter indexRowFunc [] with
  | (Some err, _) => ([], Some err)
  | (None, indexes) => (indexes, None)
  end.

End Discovery.

Arguments rows {error Row} _.
Arguments final {error Row} _.
Arguments Build_RowIterator {error Row} _ _.
Arguments doRows {error Row S} _ _ _ _.
Arguments Do {error Row S} _ _ _.
Arguments tableRowFunc {error Row} _ _ _ _.
Arguments fetchTableSchemas {error Row} _ _ _ _.
Arguments indexRowFunc {error Row} _ _ _.
Arguments fetchIndexSchemas {error Row} _ _.

(** ** Reading a stream without running the callbacks *)

Section Streams.

Context {error Row C : Type}.
Variable columns : Row -> error + C.

(** The first failure a pass over the stream meets: the decode error of
    the first row [columns] rejects, else the way the stream ends. *)
Fixpoint firstFailure (rs : list Row) (fin : option error) : option error :=
  match rs with
  | [] => fin
  | r :: rs' =>
      match columns r with
      | inl err => Some err
      | inr _ => firstFailure rs' fin
      end
  end.

(** The columns of the rows that decode, in stream order. *)
Definition decoded (rs : list Row) : list C :=
  omap (fun r => match columns r with inr c => Some c | inl _ => None end) rs.

(** [rs] decodes, row by row, to [cs]. *)
Definition decodesTo (rs : list Row) (cs : list C) : Prop :=
  Forall2 (fun r c => columns r = inr c) rs cs.

End Streams.

(** ** The selection policy *)

(** The policy in the words of the specification: every table when both
    lists are empty; with a non-empty exclude list the tables absent from
    it, whatever the include list says; with only an include list the
    tables it names. *)
Definition selects (include exclude : list string) (name : string) : Prop :=
  (include = [] /\ exclude = [])
  \/ (exclude <> [] /\ name ∉ exclude)
  \/ (exclude = [] /\ include <> [] /\ name ∈ include).

#[global] Instance selects_dec include exclude name :
  Decision (selects include exclude name).
Proof. unfold selects. apply _. Defined.

(** ** Failing streams *)

(** [failsWith columns iter err]: the first thing to go wrong on [iter] is
    [err], either the decode error of a row whose predecessors all decode,
    or the error the read ends with after rows that all decode. *)
Definition failsWith {error Row C : Type} (columns : Row -> error + C)
    (iter : RowIterator error Row) (err : error) : Prop :=
  (exists pre cs r post,
      rows iter = pre ++ r :: post /\ decodesTo columns pre cs
      /\ columns r = inl err)
  \/ (exists cs, decodesTo columns (rows iter) cs /\ final iter = Some err).

(** ** A sample client

    A small stand-in for the client library, to run the two functions on
    concrete catalogs: a row is a list of column values, and the decoders
    check the number of columns and then the columns from left to right,
    as [Row.Columns] does. *)
Module Sample.

Inductive value : Type :=
  | Null
  | Str (s : string)
  | StrArray (l : list string)
  | Int64 (n : Z).

Inductive err : Type :=
  | Canceled
  | Unavailable
  | NumOfColValue
  | DecodeColumn (i : nat).

Definition row : Type := list value.

Definition decodeString (i : nat) (v : value) : err + string :=
  match v with
  | Str s => inr s
  | _ => inl (DecodeColumn i)
  end.

Definition decodeNullString (i : nat) (v : value) : err + NullString :=
  match v with
  | Null => inr {| StringVal := ""; Valid := false |}
  | Str s => inr {| StringVal := s; Valid := true |}
  | _ => inl (DecodeColumn i)
  end.

Definition decodeStringArray (i : nat) (v : value) : err + list string :=
  match v with
  | Null => inr []
  | StrArray l => inr l
  | _ => inl (DecodeColumn i)
  end.

Definition andThen {A B : Type} (x : err + A) (k : A -> err + B) : err + B :=
  match x with
  | inl e => inl e
  | inr a => k a
  end.

Definition tableColumnsOf (r : row) : err + tableColumns :=
  match r with
  | [v0; v1; v2; v3] =>
      andThen (decodeString 0 v0) (fun tableName =>
      andThen (decodeNullString 1 v1) (fun parent =>
      andThen (decodeNullString 2 v2) (fun deleteAction =>
      andThen (decodeStringArray 3 v3) (fun referencedBy =>
      inr {| colTableName := tableName;
             colParent := parent;
             colDeleteAction := deleteAction;
             colReferencedBy := referencedBy |}))))
  | _ => inl NumOfColValue
  end.

Definition indexColumnsOf (r : row) : err + indexColumns :=
  match r with
  | [v0; v1; v2] =>
      andThen (decodeString 0 v0) (fun indexName =>
      andThen (decodeString 1 v1) (fun baseTableName =>
      andThen (decodeNullString 2 v2) (fun parent =>
      inr {| colIndexName := indexName;
             colBaseTableName := baseTableName;
             colIndexParent := parent |})))
  | _ => inl NumOfColValue
  end.

Definition DiscoverTables : RowIterator err row -> list string -> list string
    -> list tableSchema * option err :=
  fetchTableSchemas tableColumnsOf.

Definition DiscoverIndexes : RowIterator err row -> list indexSchema * option err :=
  fetchIndexSchemas indexColumnsOf.

(** The schema {A, B, C}: B is interleaved in A with cascading deletes,
    C holds a foreign key to A. *)
Definition rowA : row := [Str "A"; Null; Null; StrArray ["C"]].
Definition rowB : row := [Str "B"; Str "A"; Str "CASCADE"; StrArray []].
Definition rowC : row := [Str "C"; Null; Null; StrArray []].

Definition schemaABC : list row := [rowA; rowB; rowC].

Definition tableA : tableSchema :=
  {| tableName := "A"; parentTableName := "";
     parentOnDeleteAction := deleteActionUndefined; referencedBy := ["C"] |}.
Definition tableB : tableSchema :=
  {| tableName := "B"; parentTableName := "A";
     parentOnDeleteAction := deleteActionCascadeDelete; referencedBy := [] |}.
Definition tableC : tableSchema :=
  {| tableName := "C"; parentTableName := "";
     parentOnDeleteAction := deleteActionUndefined; referencedBy := [] |}.

Definition colsABC : list tableColumns :=
  [ {| colTableName := "A"; colParent := {| StringVal := ""; Valid := false |};
       colDeleteAction := {| StringVal := ""; Valid := false |};
       colReferencedBy := ["C"] |};
    {| colTableName := "B"; colParent := {| StringVal := "A"; Valid := true |};
       colDeleteAction := {| StringVal := "CASCADE"; Valid := true |};
       colReferencedBy := [] |};
    {| colTableName := "C"; colParent := {| StringVal := ""; Valid := false |};
       colDeleteAction := {| StringVal := ""; Valid := false |};
       colReferencedBy := [] |} ].

(** A row whose table name decodes and whose last column does not. *)
Definition rowBad : row := [Str "C"; Null; Null; Int64 7].

(** Two secondary indexes, one global and one interleaved in A. *)
Definition indexRows : list row :=
  [ [Str "ByName"; Str "C"; Null]; [Str "ByAge"; Str "B"; Str "A"] ].

Definition indexCols : list indexColumns :=
  [ {| colIndexName := "ByName"; colBaseTableName := "C";
       colIndexParent := {| StringVal := ""; Valid := false |} |};
    {| colIndexName := "ByAge"; colBaseTableName := "B";
       colIndexParent := {| StringVal := "A"; Valid := true |} |} ].

End Sample.

(** Ascending order of table names, as [ORDER BY T.TABLE_NAME ASC] and
    Go's [<=] on strings have it: bytewise lexicographic. *)
Definition nameLe (a b : string) : Prop := String.leb a b = true.

(** A parent column that names no table: NULL, or the empty string. *)
Definition noParent (parent : NullString) : Prop :=
  Valid parent = false \/ StringVal parent = "".

(** What [INFORMATION_SCHEMA.TABLES], the view the query of lines 59-72
    reads, reports for a table: [ON_DELETE_ACTION] is set only for a table
    interleaved in a parent, so it is NULL whenever [PARENT_TABLE_NAME] is. *)
Definition actionOnlyUnderParent (c : tableColumns) : Prop :=
  Valid (colParent c) = false -> Valid (colDeleteAction c) = false.

(** ** Facts about streams *)

Section StreamFacts.

Context {error Row C : Type}.
Variable columns : Row -> error + C.

Lemma decoded_cons_ok r c rs :
  columns r = inr c -> decoded columns (r :: rs) = c :: decoded columns rs.
Proof. intros Hr. unfold decoded. cbn. by rewrite Hr. Qed.

Lemma decoded_cons_bad r err rs :
  columns r = inl err -> decoded columns (r :: rs) = decoded columns rs.
Proof. intros Hr. unfold decoded. cbn. by rewrite Hr. Qed.

Lemma decodesTo_decoded rs cs :
  decodesTo columns rs cs -> decoded columns rs = cs.
Proof.
  induction 1 as [|r c rs cs Hr _ IH]; [done|].
  unfold decoded in *. cbn. rewrite Hr. cbn. by rewrite IH.
Qed.

Lemma decodesTo_firstFailure rs cs fin :
  decodesTo columns rs cs -> firstFailure columns rs fin = fin.
Proof. induction 1 as [|r c rs cs Hr _ IH]; cbn; [done|]. by rewrite Hr. Qed.

Lemma firstFailure_app_bad pre cs r err post fin :
  decodesTo columns pre cs -> columns r = inl err ->
  firstFailure columns (pre ++ r :: post) fin = Some err.
Proof.
  induction 1 as [|r0 c rs cs0 Hr _ IH]; cbn; intros Hbad.
  - by rewrite Hbad.
  - rewrite Hr. by apply IH.
Qed.

Lemma firstFailure_None rs fin :
  firstFailure columns rs fin = None ->
  decodesTo columns rs (decoded columns rs) /\ fin = None.
Proof.
  induction rs as [|r rs IH]; cbn; intros H.
  - split; [constructor | done].
  - unfold decoded. cbn. destruct (columns r) as [err|c] eqn:Hr; [done|].
    destruct (IH H) as [Hd ->]. split; [|done]. cbn. by constructor.
Qed.

Lemma firstFailure_final_Some rs err :
  is_Some (firstFailure columns rs (Some err)).
Proof. induction rs as [|r rs IH]; cbn; [eauto|]. destruct (columns r); eauto. Qed.

Lemma firstFailure_bad_row rs r err fin :
  r ∈ rs -> columns r = inl err -> is_Some (firstFailure columns rs fin).
Proof.
  induction 1 as [r rs|r r' rs _ IH]; cbn; intros Hbad.
  - rewrite Hbad. eauto.
  - destruct (columns r'); eauto.
Qed.

(** A failure found by [firstFailure] is the decode error of a row all
    of whose predecessors decode, or the end of a stream that decodes. *)
Lemma firstFailure_Some rs fin err :
  firstFailure columns rs fin = Some err ->
  (exists pre cs r post,
      rs = pre ++ r :: post /\ decodesTo columns pre cs /\ columns r = inl err)
  \/ (decodesTo columns rs (decoded columns rs) /\ fin = Some err).
Proof.
  induction rs as [|r rs IH]; cbn; intros H.
  - right. split; [constructor | done].
  - unfold decoded in *. cbn. destruct (columns r) as [e|c] eqn:Hr.
    + left. exists [], [], r, rs. repeat split; [constructor | congruence].
    + destruct (IH H) as [(pre & cs & r1 & post & -> & Hpre & Hbad) | [Hd ->]].
      * left. exists (r :: pre), (c :: cs), r1, post.
        repeat split; [by constructor | done].
      * right. split; [|done]. cbn. by constructor.
Qed.

End StreamFacts.

(** ** Facts about the selection policy *)

Lemma markAll_lookup names m k :
  markAll names m !! k = if decide (k ∈ names) then Some true else m !! k.
Proof.
  unfold markAll. revert m.
  induction names as [|t names IH]; intros m; cbn.
  - case_decide as H; [by apply elem_of_nil in H | done].
  - rewrite IH. destruct (decide (k ∈ names)) as [Hin|Hnin].
    + rewrite decide_True by (by apply list_elem_of_further). done.
    + destruct (decide (k = t)) as [->|Hne].
      * rewrite lookup_insert_eq.
        rewrite decide_True by apply list_elem_of_here. done.
      * rewrite lookup_insert_ne by done.
        rewrite decide_False; [done|].
        intros [?|?]%elem_of_cons; done.
Qed.

Lemma commaOk_markAll names k :
  commaOk (markAll names ∅) k = bool_decide (k ∈ names).
Proof.
  unfold commaOk. rewrite markAll_lookup, lookup_empty.
  case_decide.
  - by rewrite bool_decide_eq_true_2.
  - by rewrite bool_decide_eq_false_2.
Qed.

Lemma markAll_size names : size (markAll names ∅) = 0 <-> names = [].
Proof.
  split; [|by intros ->].
  intros Hsz. apply map_size_empty_iff in Hsz.
  destruct names as [|t names]; [done|]. exfalso.
  assert (markAll (t :: names) ∅ !! t = Some true) as Ht.
  { rewrite markAll_lookup. rewrite decide_True; [done | apply list_elem_of_here]. }
  rewrite Hsz, lookup_empty in Ht. done.
Qed.

Lemma newSelection_nonempty include exclude :
  include <> [] \/ exclude <> [] ->
  newSelection include exclude
  = {| truncateAll := false;
       targets := markAll include ∅;
       excludes := markAll exclude ∅ |}.
Proof.
  intros Hne. unfold newSelection.
  destruct include as [|i include], exclude as [|x exclude];
    try reflexivity.
  by destruct Hne.
Qed.

Lemma skipRow_excluding include exclude name :
  exclude <> [] ->
  skipRow (newSelection include exclude) name = bool_decide (name ∈ exclude).
Proof.
  intros He. rewrite newSelection_nonempty by auto.
  unfold skipRow. cbn [truncateAll excludes targets negb].
  rewrite bool_decide_eq_false_2 by (by rewrite markAll_size).
  cbn [negb]. rewrite commaOk_markAll. by destruct (bool_decide _).
Qed.

Lemma skipRow_including include name :
  include <> [] ->
  skipRow (newSelection include []) name = bool_decide (name ∉ include).
Proof.
  intros Hi. rewrite newSelection_nonempty by auto.
  unfold skipRow. cbn [truncateAll excludes targets negb].
  rewrite bool_decide_eq_true_2 by (by rewrite markAll_size).
  cbn [negb]. rewrite commaOk_markAll, bool_decide_not.
  by destruct (bool_decide _).
Qed.

(** The two early exits of the callback are the complement of the policy. *)
Lemma skipRow_selects include exclude name :
  skipRow (newSelection include exclude) name = false <-> selects include exclude name.
Proof.
  unfold selects.
  destruct (decide (exclude = [])) as [->|He].
  - destruct (decide (include = [])) as [->|Hi].
    + split; [intros _; by left | done].
    + rewrite skipRow_including by done.
      rewrite bool_decide_eq_false. split.
      * intros Hin. right; right. repeat split; try done.
        by destruct (decide (name ∈ include)).
      * intros [[? _]|[[? _]|(_ & _ & ?)]]; try done. by intros ?.
  - rewrite skipRow_excluding by done.
    rewrite bool_decide_eq_false. split.
    + intros Hin. right; left. done.
    + intros [[_ ?]|[[_ ?]|[? _]]]; done.
Qed.

Lemma filter_skipRow_selects include exclude (cs : list tableColumns) :
  filter (fun c => skipRow (newSelection include exclude) (colTableName c) = false) cs
  = filter (fun c => selects include exclude (colTableName c)) cs.
Proof. apply list_filter_iff. intros c. apply skipRow_selects. Qed.

(** ** What the two passes compute *)

Section Passes.

Context {error Row : Type}.
Variable tableRowColumns : Row -> error + tableColumns.
Variable indexRowColumns : Row -> error + indexColumns.

Lemma doRows_table_fst sel rs fin acc :
  (doRows (tableRowFunc tableRowColumns sel) rs fin acc).1
  = firstFailure tableRowColumns rs fin.
Proof.
  revert acc. induction rs as [|r rs IH]; intros acc; cbn; [done|].
  unfold tableRowFunc at 1. destruct (tableRowColumns r) as [err|c]; [done|].
  destruct (skipRow sel (colTableName c)); apply IH.
Qed.

Lemma doRows_table_snd sel rs fin acc :
  firstFailure tableRowColumns rs fin = None ->
  (doRows (tableRowFunc tableRowColumns sel) rs fin acc).2
  = acc ++ (newTableSchema <$>
              filter (fun c => skipRow sel (colTableName c) = false)
                     (decoded tableRowColumns rs)).
Proof.
  revert acc. induction rs as [|r rs IH]; intros acc Hff.
  - cbn. by rewrite app_nil_r.
  - cbn [doRows firstFailure] in *. unfold tableRowFunc at 1.
    destruct (tableRowColumns r) as [err|c] eqn:Hr; [done|].
    rewrite (decoded_cons_ok _ _ _ _ Hr), filter_cons.
    destruct (skipRow sel (colTableName c)) eqn:Hskip.
    + rewrite decide_False by done. by apply IH.
    + rewrite decide_True by done. rewrite IH by done.
      rewrite fmap_cons. by rewrite <- app_assoc.
Qed.

Lemma doRows_index_fst rs fin acc :
  (doRows (indexRowFunc indexRowColumns) rs fin acc).1
  = firstFailure indexRowColumns rs fin.
Proof.
  revert acc. induction rs as [|r rs IH]; intros acc; cbn; [done|].
  unfold indexRowFunc at 1. destruct (indexRowColumns r) as [err|c]; [done|].
  apply IH.
Qed.

Lemma doRows_index_snd rs fin acc :
  firstFailure indexRowColumns rs fin = None ->
  (doRows (indexRowFunc indexRowColumns) rs fin acc).2
  = acc ++ (newIndexSchema <$> decoded indexRowColumns rs).
Proof.
  revert acc. induction rs as [|r rs IH]; intros acc Hff.
  - cbn. by rewrite app_nil_r.
  - cbn [doRows firstFailure] in *. unfold indexRowFunc at 1.
    destruct (indexRowColumns r) as [err|c] eqn:Hr; [done|].
    rewrite (decoded_cons_ok _ _ _ _ Hr), fmap_cons, IH by done.
    by rewrite <- app_assoc.
Qed.

(** [fetchTableSchemas] fails with the first failure of the stream and
    no slice, and otherwise returns the descriptors of the rows the
    policy selects, in stream order. *)
Lemma fetchTableSchemas_eq iter include exclude :
  fetchTableSchemas tableRowColumns iter include exclude
  = match firstFailure tableRowColumns (rows iter) (final iter) with
    | Some err => ([], Some err)
    | None =>
        (newTableSchema <$>
           filter (fun c => selects include exclude (colTableName c))
                  (decoded tableRowColumns (rows iter)), None)
    end.
Proof.
  unfold fetchTableSchemas, Do.
  pose proof (doRows_table_fst (newSelection include exclude)
                (rows iter) (final iter) []) as Hfst.
  pose proof (doRows_table_snd (newSelection include exclude)
                (rows iter) (final iter) []) as Hsnd.
  destruct (doRows _ _ _ _) as [res tables]. cbn in Hfst, Hsnd.
  subst res. destruct (firstFailure _ _ _) as [err|]; [done|].
  rewrite Hsnd by done. cbn. by rewrite filter_skipRow_selects.
Qed.

Lemma fetchIndexSchemas_eq iter :
  fetchIndexSchemas indexRowColumns iter
  = match firstFailure indexRowColumns (rows iter) (final iter) with
    | Some err => ([], Some err)
    | None => (newIndexSchema <$> decoded indexRowColumns (rows iter), None)
    end.
Proof.
  unfold fetchIndexSchemas, Do.
  pose proof (doRows_index_fst (rows iter) (final iter) []) as Hfst.
  pose proof (doRows_index_snd (rows iter) (final iter) []) as Hsnd.
  destruct (doRows _ _ _ _) as [res indexes]. cbn in Hfst, Hsnd.
  subst res. destruct (firstFailure _ _ _) as [err|]; [done|].
  by rewrite Hsnd.
Qed.

End Passes.

(** ** Facts about failing streams *)

Section Failures.

Context {error Row C : Type}.
Variable columns : Row -> error + C.

Lemma failsWith_firstFailure (iter : RowIterator error Row) err :
  failsWith columns iter err
  <-> firstFailure columns (rows iter) (final iter) = Some err.
Proof.
  split.
  - intros [(pre & cs & r & post & -> & Hpre & Hbad) | (cs & Hdec & ->)].
    + by eapply firstFailure_app_bad.
    + by eapply decodesTo_firstFailure.
  - intros H. apply firstFailure_Some in H
      as [(pre & cs & r & post & Hrows & Hpre & Hbad) | [Hdec Hfin]].
    + left. by exists pre, cs, r, post.
    + right. by exists (decoded columns (rows iter)).
Qed.

(** Something goes wrong as soon as one row is rejected or the read
    ends with an error. *)
Lemma failure_failsWith (iter : RowIterator error Row) :
  (exists r err, r ∈ rows iter /\ columns r = inl err) \/ is_Some (final iter) ->
  exists err, failsWith columns iter err.
Proof.
  intros H.
  assert (is_Some (firstFailure columns (rows iter) (final iter))) as [err Herr].
  { destruct H as [(r & err & Hin & Hbad) | [err Hfin]].
    - by eapply firstFailure_bad_row.
    - rewrite Hfin. apply firstFailure_final_Some. }
  exists err. by apply failsWith_firstFailure.
Qed.

End Failures.

Lemma fetchTableSchemas_failsWith {error Row : Type}
    (columns : Row -> error + tableColumns) iter include exclude err :
  failsWith columns iter err ->
  fetchTableSchemas columns iter include exclude = ([], Some err).
Proof.
  intros H%failsWith_firstFailure. by rewrite fetchTableSchemas_eq, H.
Qed.

Lemma fetchIndexSchemas_failsWith {error Row : Type}
    (columns : Row -> error + indexColumns) iter err :
  failsWith columns iter err ->
  fetchIndexSchemas columns iter = ([], Some err).
Proof.
  intros H%failsWith_firstFailure. by rewrite fetchIndexSchemas_eq, H.
Qed.

(** The selection examples of the specification, run on the code. *)
Example include_only :
  Sample.DiscoverTables (Build_RowIterator Sample.schemaABC None) ["A"; "B"] []
  = ([Sample.tableA; Sample.tableB], None).
Proof. vm_compute. reflexivity. Qed.

Example exclude_wins :
  Sample.DiscoverTables (Build_RowIterator Sample.schemaABC None) ["A"] ["C"]
  = ([Sample.tableA; Sample.tableB], None).
Proof. vm_compute. reflexivity. Qed.

Example empty_selectors :
  Sample.DiscoverTables (Build_RowIterator Sample.schemaABC None) [] []
  = ([Sample.tableA; Sample.tableB; Sample.tableC], None).
Proof. vm_compute. reflexivity. Qed.

Example failure_mid_stream :
  Sample.DiscoverTables
    (Build_RowIterator [Sample.rowA; Sample.rowB] (Some Sample.Unavailable)) [] []
  = ([], Some Sample.Unavailable).
Proof. vm_compute. reflexivity. Qed.

Example excluded_row_still_decoded :
  Sample.DiscoverTables
    (Build_RowIterator [Sample.rowA; Sample.rowBad] None) [] ["C"]
  = ([], Some (Sample.DecodeColumn 3)).
Proof. vm_compute. reflexivity. Qed.

Lemma schemaABC_decodes :
  decodesTo Sample.tableColumnsOf Sample.schemaABC Sample.colsABC.
Proof. repeat constructor. Qed.

Lemma indexRows_decode :
  decodesTo Sample.indexColumnsOf Sample.indexRows Sample.indexCols.
Proof. repeat constructor. Qed.

(** ** Facts about the descriptors returned *)

(** On a stream that decodes and ends normally. *)
Lemma fetchTableSchemas_decodes {error Row : Type}
    (columns : Row -> error + tableColumns) rs cs include exclude :
  decodesTo columns rs cs ->
  fetchTableSchemas columns (Build_RowIterator rs None) include exclude
  = (newTableSchema <$>
       filter (fun c => selects include exclude (colTableName c)) cs, None).
Proof.
  intros Hdec. rewrite fetchTableSchemas_eq. cbn [rows final].
  rewrite (decodesTo_firstFailure _ _ _ _ Hdec).
  by rewrite (decodesTo_decoded _ _ _ Hdec).
Qed.

Lemma fetchIndexSchemas_decodes {error Row : Type}
    (columns : Row -> error + indexColumns) rs cs :
  decodesTo columns rs cs ->
  fetchIndexSchemas columns (Build_RowIterator rs None)
  = (newIndexSchema <$> cs, None).
Proof.
  intros Hdec. rewrite fetchIndexSchemas_eq. cbn [rows final].
  rewrite (decodesTo_firstFailure _ _ _ _ Hdec).
  by rewrite (decodesTo_decoded _ _ _ Hdec).
Qed.

(** Every descriptor returned is the descriptor of a row of the stream
    that the policy selects. *)
Lemma elem_of_fetchTableSchemas {error Row : Type}
    (columns : Row -> error + tableColumns) (iter : RowIterator error Row)
    (include exclude : list string) (d : tableSchema) :
  d ∈ (fetchTableSchemas columns iter include exclude).1 ->
  exists c, c ∈ decoded columns (rows iter)
            /\ selects include exclude (colTableName c)
            /\ d = newTableSchema c.
Proof.
  rewrite fetchTableSchemas_eq.
  destruct (firstFailure _ _ _); cbn [fst]; [by intros ?%elem_of_nil|].
  intros (c & -> & [Hsel Hin]%list_elem_of_filter)%list_elem_of_fmap.
  by exists c.
Qed.

Lemma Forall2_fmap_diag {A B : Type} (f : A -> B) (P : A -> B -> Prop)
    (l : list A) :
  (forall x, P x (f x)) -> Forall2 P l (f <$> l).
Proof.
  intros HP. apply Forall2_fmap_r, Forall_Forall2_diag, Forall_forall.
  intros x _. apply HP.
Qed.

Lemma deleteActionOf_spec (text : NullString) :
  (Valid text = true -> StringVal text = "CASCADE" ->
   deleteActionOf text = deleteActionCascadeDelete)
  /\ (Valid text = true -> StringVal text = "NO ACTION" ->
      deleteActionOf text = deleteActionNoAction)
  /\ (Valid text = true -> StringVal text <> "CASCADE" ->
      StringVal text <> "NO ACTION" ->
      deleteActionOf text = deleteActionUndefined)
  /\ (Valid text = false -> deleteActionOf text = deleteActionUndefined).
Proof.
  unfold deleteActionOf. repeat split.
  - intros -> ->. done.
  - intros -> ->. done.
  - intros -> Hc Hn. apply String.eqb_neq in Hc, Hn. by rewrite Hc, Hn.
  - intros ->. done.
Qed.

Lemma parentNameOf_empty (parent : NullString) :
  parentNameOf parent = "" <-> noParent parent.
Proof.
  unfold parentNameOf, noParent. destruct (Valid parent); split; auto.
  intros [?|?]; done.
Qed.

(** ** The claims *)

(** C1. Selection policy of table discovery: on a stream that decodes and
    ends normally, [fetchTableSchemas] returns the descriptors of exactly
    the rows [selects] admits, in stream order: all of them when both
    lists are empty, those absent from a non-empty exclude list whatever
    the include list holds, and those named by the include list when only
    it is non-empty. *)
Theorem fetchTableSchemas_selection {error Row : Type}
    (columns : Row -> error + tableColumns)
    (rs : list Row) (cs : list tableColumns) (include exclude : list string) :
  decodesTo columns rs cs ->
  fetchTableSchemas columns (Build_RowIterator rs None) include exclude
  = (newTableSchema <$>
       filter (fun c => selects include exclude (colTableName c)) cs, None)
  /\ (forall c, c ∈ cs ->
        newTableSchema c ∈
          (fetchTableSchemas columns (Build_RowIterator rs None)
             include exclude).1
        <-> (include = [] /\ exclude = [])
            \/ (exclude <> [] /\ colTableName c ∉ exclude)
            \/ (exclude = [] /\ include <> [] /\ colTableName c ∈ include)).
Proof.
  intros Hdec.
  assert (fetchTableSchemas columns (Build_RowIterator rs None)
            include exclude
          = (newTableSchema <$>
               filter (fun c => selects include exclude (colTableName c)) cs,
             None)) as Heq.
  { rewrite fetchTableSchemas_eq. cbn [rows final].
    rewrite (decodesTo_firstFailure _ _ _ _ Hdec).
    by rewrite (decodesTo_decoded _ _ _ Hdec). }
  split; [exact Heq|].
  intros c Hc. rewrite Heq. cbn [fst]. fold (selects include exclude (colTableName c)).
  rewrite list_elem_of_fmap. split.
  - intros (c' & Hsame & Hin). apply list_elem_of_filter in Hin as [Hsel _].
    assert (colTableName c = colTableName c') as ->; [|done].
    by apply (f_equal tableName) in Hsame.
  - intros Hsel. exists c. split; [done|]. by apply list_elem_of_filter.
Qed.

Lemma fetchTableSchemas_selection_witness :
  decodesTo Sample.tableColumnsOf Sample.schemaABC Sample.colsABC
  /\ fetchTableSchemas Sample.tableColumnsOf
       (Build_RowIterator Sample.schemaABC None) ["A"] ["C"]
     = (newTableSchema <$>
          filter (fun c => selects ["A"] ["C"] (colTableName c)) Sample.colsABC,
        None).
Proof.
  split.
  - repeat constructor.
  - apply (fetchTableSchemas_selection Sample.tableColumnsOf
             Sample.schemaABC Sample.colsABC ["A"] ["C"]).
    repeat constructor.
Defined.

(** C2. Atomic failure: when a row is rejected by the decoder or the read
    ends with an error, [fetchTableSchemas] and [fetchIndexSchemas] return
    the nil slice together with the error that went wrong first, unchanged. *)
Theorem fetch_failure_atomic {error Row : Type}
    (tableRowColumns : Row -> error + tableColumns)
    (indexRowColumns : Row -> error + indexColumns)
    (tableIter indexIter : RowIterator error Row)
    (include exclude : list string) :
  ((exists r err, r ∈ rows tableIter /\ tableRowColumns r = inl err)
   \/ is_Some (final tableIter) ->
   exists err,
     failsWith tableRowColumns tableIter err
     /\ fetchTableSchemas tableRowColumns tableIter include exclude
        = ([], Some err))
  /\ ((exists r err, r ∈ rows indexIter /\ indexRowColumns r = inl err)
      \/ is_Some (final indexIter) ->
      exists err,
        failsWith indexRowColumns indexIter err
        /\ fetchIndexSchemas indexRowColumns indexIter = ([], Some err)).
Proof.
  split; intros H; apply failure_failsWith in H as [err Herr];
    exists err; (split; [done|]).
  - by apply fetchTableSchemas_failsWith.
  - by apply fetchIndexSchemas_failsWith.
Qed.

Lemma fetch_failure_atomic_witness :
  let tableIter :=
    Build_RowIterator [Sample.rowA; Sample.rowB] (Some Sample.Unavailable) in
  let indexIter :=
    Build_RowIterator (Sample.indexRows ++ [Sample.rowBad]) None in
  is_Some (final tableIter)
  /\ (exists err,
        failsWith Sample.tableColumnsOf tableIter err
        /\ fetchTableSchemas Sample.tableColumnsOf
             tableIter ["A"] [] = ([], Some err))
  /\ Sample.rowBad ∈ rows indexIter
  /\ Sample.indexColumnsOf Sample.rowBad = inl Sample.NumOfColValue
  /\ (exists err,
        failsWith Sample.indexColumnsOf indexIter err
        /\ fetchIndexSchemas Sample.indexColumnsOf
             indexIter = ([], Some err)).
Proof.
  intros tableIter indexIter.
  destruct (fetch_failure_atomic Sample.tableColumnsOf Sample.indexColumnsOf
              tableIter indexIter ["A"] []) as [HT HI].
  assert (Sample.rowBad ∈ rows indexIter) as Hin.
  { cbn. do 2 apply list_elem_of_further. apply list_elem_of_here. }
  split; [cbn; eauto|].
  split; [apply HT; right; cbn; eauto|].
  split; [exact Hin|].
  split; [reflexivity|].
  apply HI. left. exists Sample.rowBad, Sample.NumOfColValue. by split.
Defined.

(** C3. Delete-action decoding: on every stream and under every pair of
    selection lists, each descriptor returned is that of a selected row
    and carries [deleteActionCascadeDelete] when the row's catalog text is
    "CASCADE", [deleteActionNoAction] when it is "NO ACTION", and
    [deleteActionUndefined] for any other text and for NULL; on a stream
    that decodes and ends normally this holds row by row, in order, for
    every selected row. *)
Theorem deleteAction_decoding {error Row : Type}
    (columns : Row -> error + tableColumns) (iter : RowIterator error Row)
    (include exclude : list string) :
  let decodesAction := fun (c : tableColumns) (d : tableSchema) =>
    tableName d = colTableName c
    /\ (Valid (colDeleteAction c) = true ->
        StringVal (colDeleteAction c) = "CASCADE" ->
        parentOnDeleteAction d = deleteActionCascadeDelete)
    /\ (Valid (colDeleteAction c) = true ->
        StringVal (colDeleteAction c) = "NO ACTION" ->
        parentOnDeleteAction d = deleteActionNoAction)
    /\ (Valid (colDeleteAction c) = true ->
        StringVal (colDeleteAction c) <> "CASCADE" ->
        StringVal (colDeleteAction c) <> "NO ACTION" ->
        parentOnDeleteAction d = deleteActionUndefined)
    /\ (Valid (colDeleteAction c) = false ->
        parentOnDeleteAction d = deleteActionUndefined) in
  Forall
    (fun d => exists c,
       c ∈ decoded columns (rows iter)
       /\ selects include exclude (colTableName c)
       /\ decodesAction c d)
    (fetchTableSchemas columns iter include exclude).1
  /\ (forall cs,
        decodesTo columns (rows iter) cs -> final iter = None ->
        exists tables,
          fetchTableSchemas columns iter include exclude = (tables, None)
          /\ Forall2 decodesAction
               (filter (fun c => selects include exclude (colTableName c)) cs)
               tables).
Proof.
  intros decodesAction.
  assert (forall c, decodesAction c (newTableSchema c)) as Hrow.
  { intros c. split; [done|]. apply deleteActionOf_spec. }
  split.
  - apply Forall_forall. intros d Hd.
    apply elem_of_fetchTableSchemas in Hd as (c & Hc & Hsel & ->).
    by exists c.
  - intros cs Hdec Hfin. destruct iter as [rs fin]. cbn [rows final] in *.
    subst fin. rewrite (fetchTableSchemas_decodes _ _ _ _ _ Hdec).
    eexists. split; [reflexivity|]. by apply Forall2_fmap_diag.
Qed.

Lemma deleteAction_decoding_witness :
  let iter := Build_RowIterator Sample.schemaABC None in
  decodesTo Sample.tableColumnsOf (rows iter) Sample.colsABC
  /\ final iter = None
  /\ exists tables,
       fetchTableSchemas Sample.tableColumnsOf iter ["B"; "C"] []
       = (tables, None)
       /\ Forall2
            (fun c d =>
               tableName d = colTableName c
               /\ (Valid (colDeleteAction c) = true ->
                   StringVal (colDeleteAction c) = "CASCADE" ->
                   parentOnDeleteAction d = deleteActionCascadeDelete)
               /\ (Valid (colDeleteAction c) = false ->
                   parentOnDeleteAction d = deleteActionUndefined))
            (filter (fun c => selects ["B"; "C"] [] (colTableName c))
                    Sample.colsABC)
            tables.
Proof.
  intros iter.
  assert (decodesTo Sample.tableColumnsOf (rows iter) Sample.colsABC) as Hdec.
  { repeat constructor. }
  split; [exact Hdec|]. split; [reflexivity|].
  destruct (deleteAction_decoding Sample.tableColumnsOf iter ["B"; "C"] [])
    as [_ Hall].
  destruct (Hall Sample.colsABC Hdec eq_refl) as (tables & Heq & Hrows).
  exists tables. split; [exact Heq|].
  eapply Forall2_impl; [exact Hrows|].
  intros c d (Hname & Hcascade & _ & _ & Hnull). auto.
Defined.

(** C4. Tables without a parent: on rows as the catalog reports them,
    where the delete action is NULL whenever the parent is, each
    descriptor returned for a row whose parent column is NULL has the
    empty parent name and [deleteActionUndefined], on every stream and
    under every pair of selection lists; on a stream that decodes and ends
    normally this holds row by row, in order, for every selected row. *)
Theorem no_parent_descriptor {error Row : Type}
    (columns : Row -> error + tableColumns) (iter : RowIterator error Row)
    (include exclude : list string) :
  let rootDescriptor := fun (c : tableColumns) (d : tableSchema) =>
    tableName d = colTableName c
    /\ (Valid (colParent c) = false ->
        parentTableName d = ""
        /\ parentOnDeleteAction d = deleteActionUndefined) in
  Forall actionOnlyUnderParent (decoded columns (rows iter)) ->
  Forall
    (fun d => exists c,
       c ∈ decoded columns (rows iter)
       /\ selects include exclude (colTableName c)
       /\ rootDescriptor c d)
    (fetchTableSchemas columns iter include exclude).1
  /\ (forall cs,
        decodesTo columns (rows iter) cs -> final iter = None ->
        exists tables,
          fetchTableSchemas columns iter include exclude = (tables, None)
          /\ Forall2 rootDescriptor
               (filter (fun c => selects include exclude (colTableName c)) cs)
               tables).
Proof.
  intros rootDescriptor Hcat.
  assert (forall c, actionOnlyUnderParent c ->
                    rootDescriptor c (newTableSchema c)) as Hrow.
  { intros c Hc. split; [done|]. intros Hnull.
    cbn [newTableSchema parentTableName parentOnDeleteAction]. split.
    - apply parentNameOf_empty. by left.
    - apply deleteActionOf_spec. by apply Hc. }
  split.
  - apply Forall_forall. intros d Hd.
    apply elem_of_fetchTableSchemas in Hd as (c & Hc & Hsel & ->).
    exists c. split; [done|]. split; [done|].
    apply Hrow. by eapply Forall_forall in Hcat.
  - intros cs Hdec Hfin. destruct iter as [rs fin]. cbn [rows final] in *.
    subst fin. rewrite (fetchTableSchemas_decodes _ _ _ _ _ Hdec).
    rewrite (decodesTo_decoded _ _ _ Hdec) in Hcat.
    eexists. split; [reflexivity|].
    apply Forall2_fmap_r, Forall_Forall2_diag, Forall_forall.
    intros c [_ Hc]%list_elem_of_filter. apply Hrow.
    by eapply Forall_forall in Hcat.
Qed.

Lemma no_parent_descriptor_witness :
  let iter := Build_RowIterator Sample.schemaABC None in
  Forall actionOnlyUnderParent (decoded Sample.tableColumnsOf (rows iter))
  /\ decodesTo Sample.tableColumnsOf (rows iter) Sample.colsABC
  /\ final iter = None
  /\ exists tables,
       fetchTableSchemas Sample.tableColumnsOf iter [] ["B"] = (tables, None)
       /\ Forall2
            (fun c d =>
               tableName d = colTableName c
               /\ (Valid (colParent c) = false ->
                   parentTableName d = ""
                   /\ parentOnDeleteAction d = deleteActionUndefined))
            (filter (fun c => selects [] ["B"] (colTableName c))
                    Sample.colsABC)
            tables.
Proof.
  intros iter.
  assert (Forall actionOnlyUnderParent
            (decoded Sample.tableColumnsOf (rows iter))) as Hcat.
  { vm_compute. repeat constructor; intros H; try reflexivity; discriminate H. }
  assert (decodesTo Sample.tableColumnsOf (rows iter) Sample.colsABC) as Hdec.
  { repeat constructor. }
  split; [exact Hcat|]. split; [exact Hdec|]. split; [reflexivity|].
  destruct (no_parent_descriptor Sample.tableColumnsOf iter [] ["B"] Hcat)
    as [_ Hall].
  exact (Hall Sample.colsABC Hdec eq_refl).
Defined.

(** ** Facts about the order of names *)

Lemma compare_as_OT (a b : string) :
  String.compare a b = String_as_OT.compare a b.
Proof.
  revert b. induction a as [|x a IH]; intros [|y b]; cbn; reflexivity.
Qed.

Lemma nameLe_lt_eq (a b : string) :
  nameLe a b <-> String_as_OT.lt a b \/ a = b.
Proof.
  unfold nameLe, String.leb, String_as_OT.lt. rewrite compare_as_OT.
  destruct (String_as_OT.compare_spec a b) as [Heq|Hlt|Hgt].
  - split; auto.
  - split; auto.
  - split; [done|]. intros [?| ->]; [done|].
    by apply (irreflexivity String_as_OT.lt) in Hgt.
Qed.

#[global] Instance nameLe_transitive : Transitive nameLe.
Proof.
  intros a b c. rewrite !nameLe_lt_eq.
  intros [Hab| ->] [Hbc| ->]; auto.
  left. by transitivity b.
Qed.

Lemma StronglySorted_sublist {A : Type} (R : relation A) (l k : list A) :
  l `sublist_of` k -> StronglySorted R k -> StronglySorted R l.
Proof.
  induction 1 as [|x l k Hsub IH|x l k Hsub IH]; intros Hk.
  - constructor.
  - apply StronglySorted_cons in Hk as [Hx Hk].
    apply StronglySorted_cons. split; [|by apply IH].
    rewrite Forall_forall in Hx |- *. intros y Hy. apply Hx.
    by apply (sublist_subseteq _ _ Hsub).
  - apply StronglySorted_cons in Hk as [_ Hk]. by apply IH.
Qed.

Lemma tableName_newTableSchema (cs : list tableColumns) :
  tableName <$> (newTableSchema <$> cs) = colTableName <$> cs.
Proof. by rewrite <- list_fmap_compose. Qed.

Lemma filter_selects_all (cs : list tableColumns) :
  filter (fun c => selects [] [] (colTableName c)) cs = cs.
Proof.
  induction cs as [|c cs IH]; [done|].
  rewrite filter_cons, decide_True by (by left). by rewrite IH.
Qed.

(** The names [fetchTableSchemas] returns, in order, are a sublist of the
    names of the rows that decode. *)
Lemma fetchTableSchemas_names_sublist {error Row : Type}
    (columns : Row -> error + tableColumns) iter include exclude :
  (tableName <$> (fetchTableSchemas columns iter include exclude).1)
  `sublist_of` (colTableName <$> decoded columns (rows iter)).
Proof.
  rewrite fetchTableSchemas_eq.
  destruct (firstFailure _ _ _) as [err|]; cbn [fst].
  - apply sublist_nil_l.
  - rewrite tableName_newTableSchema. apply fmap_sublist, sublist_filter.
Qed.

(** C5. Sorted output: when the rows of the stream come in ascending
    order of table name, the slice [fetchTableSchemas] returns is in
    ascending order of [tableName] for every pair of selection lists, each
    name being at most every later one; with both lists empty, on a stream
    that decodes and ends normally, it holds the descriptor of every row,
    in that order. *)
Theorem fetchTableSchemas_sorted {error Row : Type}
    (columns : Row -> error + tableColumns)
    (iter : RowIterator error Row) (include exclude : list string) :
  Sorted nameLe (colTableName <$> decoded columns (rows iter)) ->
  StronglySorted nameLe
    (tableName <$> (fetchTableSchemas columns iter include exclude).1)
  /\ (forall cs,
        decodesTo columns (rows iter) cs -> final iter = None ->
        fetchTableSchemas columns iter [] []
        = (newTableSchema <$> cs, None)
        /\ StronglySorted nameLe (tableName <$> (newTableSchema <$> cs))).
Proof.
  intros Hsorted%Sorted_StronglySorted; [|apply _]. split.
  - eapply StronglySorted_sublist; [apply fetchTableSchemas_names_sublist | done].
  - intros cs Hdec Hfin. rewrite fetchTableSchemas_eq, Hfin.
    rewrite (decodesTo_firstFailure _ _ _ _ Hdec).
    rewrite (decodesTo_decoded _ _ _ Hdec) in *.
    rewrite filter_selects_all, tableName_newTableSchema. done.
Qed.

Lemma fetchTableSchemas_sorted_witness :
  let iter := Build_RowIterator Sample.schemaABC None in
  Sorted nameLe (colTableName <$> decoded Sample.tableColumnsOf (rows iter))
  /\ StronglySorted nameLe
       (tableName <$>
          (fetchTableSchemas Sample.tableColumnsOf
             iter [] ["B"]).1)
  /\ fetchTableSchemas Sample.tableColumnsOf iter [] []
     = (newTableSchema <$> Sample.colsABC, None).
Proof.
  intros iter.
  assert (Sorted nameLe
            (colTableName <$> decoded Sample.tableColumnsOf (rows iter)))
    as Hsorted.
  { vm_compute. repeat constructor. }
  destruct (fetchTableSchemas_sorted Sample.tableColumnsOf iter [] ["B"] Hsorted)
    as [Hout Hall].
  split; [exact Hsorted|]. split; [exact Hout|].
  apply (Hall Sample.colsABC); [repeat constructor | reflexivity].
Defined.

(** C6. Index discovery is complete and unfiltered: on a stream that
    decodes and ends normally [fetchIndexSchemas] returns one descriptor
    per row, in stream order, holding the row's index name, its base table
    name, and its parent table name, empty when the column is NULL.  The
    function takes no selection lists. *)
Theorem fetchIndexSchemas_complete {error Row : Type}
    (columns : Row -> error + indexColumns)
    (rs : list Row) (cs : list indexColumns) :
  decodesTo columns rs cs ->
  let result := fetchIndexSchemas columns (Build_RowIterator rs None) in
  result = (newIndexSchema <$> cs, None)
  /\ length result.1 = length rs
  /\ Forall2
       (fun c d =>
          indexName d = colIndexName c
          /\ baseTableName d = colBaseTableName c
          /\ Index.parentTableName d
             = if Valid (colIndexParent c) then StringVal (colIndexParent c)
               else "")
       cs result.1.
Proof.
  intros Hdec result.
  assert (result = (newIndexSchema <$> cs, None)) as ->.
  { unfold result. rewrite fetchIndexSchemas_eq. cbn [rows final].
    rewrite (decodesTo_firstFailure _ _ _ _ Hdec).
    by rewrite (decodesTo_decoded _ _ _ Hdec). }
  split; [done|]. cbn [fst]. split.
  - rewrite length_fmap. symmetry. by eapply Forall2_length.
  - apply Forall2_fmap_r, Forall_Forall2_diag, Forall_forall.
    intros c _. done.
Qed.

Lemma fetchIndexSchemas_complete_witness :
  decodesTo Sample.indexColumnsOf Sample.indexRows Sample.indexCols
  /\ fetchIndexSchemas Sample.indexColumnsOf
       (Build_RowIterator Sample.indexRows None)
     = (newIndexSchema <$> Sample.indexCols, None).
Proof.
  split; [repeat constructor|].
  apply (fetchIndexSchemas_complete Sample.indexColumnsOf
           Sample.indexRows Sample.indexCols).
  repeat constructor.
Defined.

(** C7. Subset invariant: every table name in the slice
    [fetchTableSchemas] returns is the name of a row of the stream, and the
    slice is a sublist of the one the empty selection lists give. *)
Theorem fetchTableSchemas_names_subset {error Row : Type}
    (columns : Row -> error + tableColumns)
    (iter : RowIterator error Row) (include exclude : list string) :
  (tableName <$> (fetchTableSchemas columns iter include exclude).1)
  ⊆ (colTableName <$> decoded columns (rows iter))
  /\ (fetchTableSchemas columns iter include exclude).1
     `sublist_of` (fetchTableSchemas columns iter [] []).1.
Proof.
  split.
  - apply sublist_subseteq, fetchTableSchemas_names_sublist.
  - rewrite !fetchTableSchemas_eq.
    destruct (firstFailure _ _ _) as [err|]; cbn [fst]; [done|].
    rewrite filter_selects_all. apply fmap_sublist, sublist_filter.
Qed.

(** C8, as the code has it.  Cancellation: when the read ends with the
    cancellation error [cancelled], both functions return an error and the
    nil slice, never the rows read so far as a success; the error is the
    first failure of the stream, which is [cancelled] itself when every
    row delivered before it decodes, and otherwise the decode error of the
    first row rejected. *)
Theorem cancellation_never_partial {error Row : Type}
    (tableRowColumns : Row -> error + tableColumns)
    (indexRowColumns : Row -> error + indexColumns)
    (tableRows indexRows : list Row) (cancelled : error)
    (include exclude : list string) :
  let tableIter := Build_RowIterator tableRows (Some cancelled) in
  let indexIter := Build_RowIterator indexRows (Some cancelled) in
  let tables := fetchTableSchemas tableRowColumns tableIter include exclude in
  let indexes := fetchIndexSchemas indexRowColumns indexIter in
  (exists err,
     tables = ([], Some err) /\ failsWith tableRowColumns tableIter err)
  /\ (exists err,
        indexes = ([], Some err) /\ failsWith indexRowColumns indexIter err)
  /\ ((exists cs, decodesTo tableRowColumns tableRows cs) ->
      tables = ([], Some cancelled))
  /\ ((exists cs, decodesTo indexRowColumns indexRows cs) ->
      indexes = ([], Some cancelled))
  /\ (forall pre cs r post err,
        tableRows = pre ++ r :: post ->
        decodesTo tableRowColumns pre cs ->
        tableRowColumns r = inl err ->
        tables = ([], Some err))
  /\ (forall pre cs r post err,
        indexRows = pre ++ r :: post ->
        decodesTo indexRowColumns pre cs ->
        indexRowColumns r = inl err ->
        indexes = ([], Some err)).
Proof.
  intros tableIter indexIter tables indexes.
  split; [|split; [|split; [|split; [|split]]]].
  - destruct (failure_failsWith tableRowColumns tableIter) as [err Herr];
      [right; cbn; eauto|].
    exists err. split; [|done]. by apply fetchTableSchemas_failsWith.
  - destruct (failure_failsWith indexRowColumns indexIter) as [err Herr];
      [right; cbn; eauto|].
    exists err. split; [|done]. by apply fetchIndexSchemas_failsWith.
  - intros [cs Hdec]. apply fetchTableSchemas_failsWith. right. by exists cs.
  - intros [cs Hdec]. apply fetchIndexSchemas_failsWith. right. by exists cs.
  - intros pre cs r post err Hrows Hpre Hbad.
    apply fetchTableSchemas_failsWith. left. by exists pre, cs, r, post.
  - intros pre cs r post err Hrows Hpre Hbad.
    apply fetchIndexSchemas_failsWith. left. by exists pre, cs, r, post.
Qed.

Lemma cancellation_never_partial_witness :
  (exists cs, decodesTo Sample.tableColumnsOf [Sample.rowA; Sample.rowB] cs)
  /\ fetchTableSchemas Sample.tableColumnsOf
       (Build_RowIterator [Sample.rowA; Sample.rowB] (Some Sample.Canceled))
       [] []
     = ([], Some Sample.Canceled)
  /\ (exists cs, decodesTo Sample.indexColumnsOf Sample.indexRows cs)
  /\ fetchIndexSchemas Sample.indexColumnsOf
       (Build_RowIterator Sample.indexRows (Some Sample.Canceled))
     = ([], Some Sample.Canceled).
Proof.
  destruct (cancellation_never_partial Sample.tableColumnsOf
              Sample.indexColumnsOf [Sample.rowA; Sample.rowB]
              Sample.indexRows Sample.Canceled [] [])
    as (_ & _ & HT & HI & _ & _).
  assert (exists cs, decodesTo Sample.tableColumnsOf
                       [Sample.rowA; Sample.rowB] cs) as HdT.
  { eexists. repeat constructor. }
  assert (exists cs, decodesTo Sample.indexColumnsOf Sample.indexRows cs)
    as HdI.
  { exists Sample.indexCols. repeat constructor. }
  split; [exact HdT|]. split; [exact (HT HdT)|].
  split; [exact HdI|]. exact (HI HdI).
Defined.

(** C8 as stated fails: on a stream that ends with the cancellation error
    after a row the decoder rejects, the error returned is the decode
    error of that row, not the cancellation error. *)
Lemma cancellation_error_counterexample :
  Sample.DiscoverTables
    (Build_RowIterator [Sample.rowA; Sample.rowBad] (Some Sample.Canceled))
    [] []
  = ([], Some (Sample.DecodeColumn 3))
  /\ ~ (forall (rs : list Sample.row) (include exclude : list string),
          Sample.DiscoverTables
            (Build_RowIterator rs (Some Sample.Canceled)) include exclude
          = ([], Some Sample.Canceled)).
Proof.
  split; [vm_compute; reflexivity|].
  intros H. specialize (H [Sample.rowA; Sample.rowBad] [] []).
  vm_compute in H. discriminate H.
Qed.

Lemma newTableSchema_noParent (c c' : tableColumns) :
  colTableName c = colTableName c' ->
  colDeleteAction c = colDeleteAction c' ->
  colReferencedBy c = colReferencedBy c' ->
  colParent c = colParent c'
  \/ (noParent (colParent c) /\ noParent (colParent c')) ->
  newTableSchema c = newTableSchema c'.
Proof.
  intros Hn Ha Hr Hp. unfold newTableSchema. rewrite Hn, Ha, Hr. f_equal.
  destruct Hp as [->|[Hc Hc']]; [done|].
  apply parentNameOf_empty in Hc, Hc'. by rewrite Hc, Hc'.
Qed.

Lemma newIndexSchema_noParent (c c' : indexColumns) :
  colIndexName c = colIndexName c' ->
  colBaseTableName c = colBaseTableName c' ->
  colIndexParent c = colIndexParent c'
  \/ (noParent (colIndexParent c) /\ noParent (colIndexParent c')) ->
  newIndexSchema c = newIndexSchema c'.
Proof.
  intros Hn Hb Hp. unfold newIndexSchema. rewrite Hn, Hb. f_equal.
  destruct Hp as [->|[Hc Hc']]; [done|].
  apply parentNameOf_empty in Hc, Hc'. by rewrite Hc, Hc'.
Qed.

(** C9. Absence of a parent is the empty string: in what table and index
    discovery return for a stream that decodes and ends normally, row by
    row, the parent table name of a descriptor is empty exactly when the
    parent column of its row is NULL or holds the empty string; and two
    streams whose rows differ only in that, a NULL parent where the other
    has the empty string, give the same result. *)
Theorem absent_parent_is_empty_string {error Row : Type}
    (tableRowColumns : Row -> error + tableColumns)
    (indexRowColumns : Row -> error + indexColumns)
    (tableRows : list Row) (tableCols : list tableColumns)
    (indexRows : list Row) (indexCols : list indexColumns)
    (include exclude : list string) :
  decodesTo tableRowColumns tableRows tableCols ->
  decodesTo indexRowColumns indexRows indexCols ->
  (exists tables,
     fetchTableSchemas tableRowColumns (Build_RowIterator tableRows None)
       include exclude = (tables, None)
     /\ Forall2
          (fun c d =>
             tableName d = colTableName c
             /\ (parentTableName d = ""
                 <-> Valid (colParent c) = false
                     \/ StringVal (colParent c) = ""))
          (filter (fun c => selects include exclude (colTableName c)) tableCols)
          tables)
  /\ (exists indexes,
        fetchIndexSchemas indexRowColumns (Build_RowIterator indexRows None)
        = (indexes, None)
        /\ Forall2
             (fun c d =>
                indexName d = colIndexName c
                /\ (Index.parentTableName d = ""
                    <-> Valid (colIndexParent c) = false
                        \/ StringVal (colIndexParent c) = ""))
             indexCols indexes)
  /\ (forall tableRows' tableCols',
        decodesTo tableRowColumns tableRows' tableCols' ->
        Forall2
          (fun c c' =>
             colTableName c = colTableName c'
             /\ colDeleteAction c = colDeleteAction c'
             /\ colReferencedBy c = colReferencedBy c'
             /\ (colParent c = colParent c'
                 \/ (noParent (colParent c) /\ noParent (colParent c'))))
          tableCols tableCols' ->
        fetchTableSchemas tableRowColumns (Build_RowIterator tableRows' None)
          include exclude
        = fetchTableSchemas tableRowColumns (Build_RowIterator tableRows None)
            include exclude)
  /\ (forall indexRows' indexCols',
        decodesTo indexRowColumns indexRows' indexCols' ->
        Forall2
          (fun c c' =>
             colIndexName c = colIndexName c'
             /\ colBaseTableName c = colBaseTableName c'
             /\ (colIndexParent c = colIndexParent c'
                 \/ (noParent (colIndexParent c)
                     /\ noParent (colIndexParent c'))))
          indexCols indexCols' ->
        fetchIndexSchemas indexRowColumns (Build_RowIterator indexRows' None)
        = fetchIndexSchemas indexRowColumns (Build_RowIterator indexRows None)).
Proof.
  intros HT HI.
  rewrite (fetchTableSchemas_decodes _ _ _ _ _ HT).
  rewrite (fetchIndexSchemas_decodes _ _ _ HI).
  split; [|split; [|split]].
  - eexists. split; [reflexivity|]. apply Forall2_fmap_diag.
    intros c. split; [done|]. apply parentNameOf_empty.
  - eexists. split; [reflexivity|]. apply Forall2_fmap_diag.
    intros c. split; [done|]. apply parentNameOf_empty.
  - intros tableRows' tableCols' HT' Hsame.
    rewrite (fetchTableSchemas_decodes _ _ _ _ _ HT'). f_equal.
    clear HT HT'. induction Hsame as [|c c' cs cs' (Hn & Ha & Hr & Hp) _ IH];
      [done|].
    rewrite !filter_cons, <- Hn.
    destruct (decide (selects include exclude (colTableName c))); [|done].
    rewrite !fmap_cons, IH. f_equal. symmetry.
    by apply newTableSchema_noParent.
  - intros indexRows' indexCols' HI' Hsame.
    rewrite (fetchIndexSchemas_decodes _ _ _ HI'). f_equal.
    clear HI HI'. induction Hsame as [|c c' cs cs' (Hn & Hb & Hp) _ IH];
      [done|].
    rewrite !fmap_cons, IH. f_equal. symmetry.
    by apply newIndexSchema_noParent.
Qed.

Lemma absent_parent_is_empty_string_witness :
  let emptyA : Sample.row :=
    [Sample.Str "A"; Sample.Str ""; Sample.Null; Sample.StrArray ["C"]] in
  let emptyByName : Sample.row :=
    [Sample.Str "ByName"; Sample.Str "C"; Sample.Str ""] in
  decodesTo Sample.tableColumnsOf Sample.schemaABC Sample.colsABC
  /\ decodesTo Sample.indexColumnsOf Sample.indexRows Sample.indexCols
  /\ (exists tables,
        fetchTableSchemas Sample.tableColumnsOf
          (Build_RowIterator Sample.schemaABC None) [] ["C"] = (tables, None)
        /\ Forall2
             (fun c d =>
                tableName d = colTableName c
                /\ (parentTableName d = ""
                    <-> Valid (colParent c) = false
                        \/ StringVal (colParent c) = ""))
             (filter (fun c => selects [] ["C"] (colTableName c))
                     Sample.colsABC)
             tables)
  /\ fetchTableSchemas Sample.tableColumnsOf
       (Build_RowIterator [emptyA; Sample.rowB; Sample.rowC] None) [] ["C"]
     = fetchTableSchemas Sample.tableColumnsOf
         (Build_RowIterator Sample.schemaABC None) [] ["C"]
  /\ fetchIndexSchemas Sample.indexColumnsOf
       (Build_RowIterator [emptyByName; [Sample.Str "ByAge"; Sample.Str "B";
                                         Sample.Str "A"]] None)
     = fetchIndexSchemas Sample.indexColumnsOf
         (Build_RowIterator Sample.indexRows None).
Proof.
  intros emptyA emptyByName.
  assert (decodesTo Sample.tableColumnsOf Sample.schemaABC Sample.colsABC)
    as HT by repeat constructor.
  assert (decodesTo Sample.indexColumnsOf Sample.indexRows Sample.indexCols)
    as HI by repeat constructor.
  destruct (absent_parent_is_empty_string Sample.tableColumnsOf
              Sample.indexColumnsOf Sample.schemaABC Sample.colsABC
              Sample.indexRows Sample.indexCols [] ["C"] HT HI)
    as (Htables & _ & HsameT & HsameI).
  split; [exact HT|]. split; [exact HI|]. split; [exact Htables|]. split.
  - apply (HsameT _
             [ {| colTableName := "A";
                  colParent := {| StringVal := ""; Valid := true |};
                  colDeleteAction := {| StringVal := ""; Valid := false |};
                  colReferencedBy := ["C"] |};
               {| colTableName := "B";
                  colParent := {| StringVal := "A"; Valid := true |};
                  colDeleteAction := {| StringVal := "CASCADE"; Valid := true |};
                  colReferencedBy := [] |};
               {| colTableName := "C";
                  colParent := {| StringVal := ""; Valid := false |};
                  colDeleteAction := {| StringVal := ""; Valid := false |};
                  colReferencedBy := [] |} ]).
    + repeat constructor.
    + constructor.
      { do 3 (split; [reflexivity|]). right. split; [by left | by right]. }
      constructor; [do 3 (split; [reflexivity|]); by left|].
      constructor; [do 3 (split; [reflexivity|]); by left|].
      constructor.
  - apply (HsameI _
             [ {| colIndexName := "ByName"; colBaseTableName := "C";
                  colIndexParent := {| StringVal := ""; Valid := true |} |};
               {| colIndexName := "ByAge"; colBaseTableName := "B";
                  colIndexParent := {| StringVal := "A"; Valid := true |} |} ]).
    + repeat constructor.
    + constructor.
      { do 2 (split; [reflexivity|]). right. split; [by left | by right]. }
      constructor; [do 2 (split; [reflexivity|]); by left|].
      constructor.
Defined.

(** C10. Decoding precedes filtering: a row the decoder rejects makes
    [fetchTableSchemas] fail with that decode error whatever the selection
    lists are, and the error returned never depends on them. *)
Theorem decoding_precedes_filtering {error Row : Type}
    (columns : Row -> error + tableColumns)
    (pre : list Row) (cs : list tableColumns) (r : Row) (post : list Row)
    (fin : option error) (err : error) (include exclude : list string) :
  decodesTo columns pre cs ->
  columns r = inl err ->
  fetchTableSchemas columns
    (Build_RowIterator (pre ++ r :: post) fin) include exclude
  = ([], Some err)
  /\ (forall iter : RowIterator error Row,
        (fetchTableSchemas columns iter include exclude).2
        = (fetchTableSchemas columns iter [] []).2).
Proof.
  intros Hpre Hbad. split.
  - apply fetchTableSchemas_failsWith. left. by exists pre, cs, r, post.
  - intros iter. rewrite !fetchTableSchemas_eq.
    by destruct (firstFailure _ _ _).
Qed.

Lemma decoding_precedes_filtering_witness :
  decodesTo Sample.tableColumnsOf [Sample.rowA]
    [ {| colTableName := "A";
         colParent := {| StringVal := ""; Valid := false |};
         colDeleteAction := {| StringVal := ""; Valid := false |};
         colReferencedBy := ["C"] |} ]
  /\ Sample.tableColumnsOf Sample.rowBad = inl (Sample.DecodeColumn 3)
  /\ fetchTableSchemas Sample.tableColumnsOf
       (Build_RowIterator ([Sample.rowA] ++ Sample.rowBad :: [Sample.rowB]) None)
       [] ["C"]
     = ([], Some (Sample.DecodeColumn 3)).
Proof.
  split; [repeat constructor|]. split; [reflexivity|].
  eapply (decoding_precedes_filtering Sample.tableColumnsOf [Sample.rowA]).
  - repeat constructor.
  - reflexivity.
Defined.

(** ** Further properties of the two functions *)

Lemma firstFailure_None_iff {error Row C : Type} (columns : Row -> error + C)
    (rs : list Row) (fin : option error) :
  firstFailure columns rs fin = None
  <-> (exists cs, decodesTo columns rs cs) /\ fin = None.
Proof.
  split.
  - intros [Hdec ->]%firstFailure_None. split; [|done].
    by exists (decoded columns rs).
  - intros [[cs Hdec] ->]. by eapply decodesTo_firstFailure.
Qed.

Lemma filter_keep_all {A : Type} (P : A -> Prop) `{!forall x, Decision (P x)}
    (l : list A) :
  Forall P l -> filter P l = l.
Proof.
  induction 1 as [|x l Hx _ IH]; [done|].
  by rewrite filter_cons, decide_True, IH.
Qed.

Lemma filter_drop_all {A : Type} (P : A -> Prop) `{!forall x, Decision (P x)}
    (l : list A) :
  Forall (fun x => ~ P x) l -> filter P l = [].
Proof.
  induction 1 as [|x l Hx _ IH]; [done|].
  by rewrite filter_cons, decide_False.
Qed.

Lemma filter_sublist_mono {A : Type} (P Q : A -> Prop)
    `{!forall x, Decision (P x)} `{!forall x, Decision (Q x)} (l : list A) :
  (forall x, P x -> Q x) -> filter P l `sublist_of` filter Q l.
Proof.
  intros HPQ. induction l as [|x l IH]; [done|].
  rewrite !filter_cons. destruct (decide (P x)) as [HP|HP].
  - rewrite decide_True by auto. by apply sublist_skip.
  - destruct (decide (Q x)); [by apply sublist_cons | done].
Qed.

Lemma same_elements_nil {A : Type} (l k : list A) :
  (forall x, x ∈ l <-> x ∈ k) -> (l = [] <-> k = []).
Proof.
  intros H. split; intros ->.
  - destruct k as [|x k]; [done|].
    exfalso. eapply not_elem_of_nil, H, list_elem_of_here.
  - destruct l as [|x l]; [done|].
    exfalso. eapply not_elem_of_nil, H, list_elem_of_here.
Qed.

Lemma selects_same_elements include include' exclude exclude' name :
  (forall x, x ∈ include <-> x ∈ include') ->
  (forall x, x ∈ exclude <-> x ∈ exclude') ->
  selects include exclude name <-> selects include' exclude' name.
Proof.
  intros Hi He. unfold selects.
  pose proof (same_elements_nil _ _ Hi) as Hin.
  pose proof (same_elements_nil _ _ He) as Hen.
  rewrite Hin, Hen, (Hi name), (He name). done.
Qed.

(** X1. No error of its own: the error [fetchTableSchemas] and
    [fetchIndexSchemas] return is the first failure of the stream and
    nothing else, and they succeed exactly when every row decodes and the
    read ends with [iterator.Done]; filtering never fails. *)
Theorem fetch_error_exact {error Row : Type}
    (tableRowColumns : Row -> error + tableColumns)
    (indexRowColumns : Row -> error + indexColumns)
    (tableIter indexIter : RowIterator error Row)
    (include exclude : list string) :
  (forall err,
     (fetchTableSchemas tableRowColumns tableIter include exclude).2 = Some err
     <-> failsWith tableRowColumns tableIter err)
  /\ ((fetchTableSchemas tableRowColumns tableIter include exclude).2 = None
      <-> (exists cs, decodesTo tableRowColumns (rows tableIter) cs)
          /\ final tableIter = None)
  /\ (forall err,
        (fetchIndexSchemas indexRowColumns indexIter).2 = Some err
        <-> failsWith indexRowColumns indexIter err)
  /\ ((fetchIndexSchemas indexRowColumns indexIter).2 = None
      <-> (exists cs, decodesTo indexRowColumns (rows indexIter) cs)
          /\ final indexIter = None).
Proof.
  rewrite fetchTableSchemas_eq, fetchIndexSchemas_eq.
  setoid_rewrite failsWith_firstFailure.
  rewrite <- !firstFailure_None_iff.
  repeat split; destruct (firstFailure _ _ _); cbn; congruence.
Qed.

(** X2. The selection lists are read as sets: two include lists with the
    same elements and two exclude lists with the same elements, in any
    order and with any repetitions, give the same result. *)
Theorem selection_lists_are_sets {error Row : Type}
    (columns : Row -> error + tableColumns) (iter : RowIterator error Row)
    (include include' exclude exclude' : list string) :
  (forall x, x ∈ include <-> x ∈ include') ->
  (forall x, x ∈ exclude <-> x ∈ exclude') ->
  fetchTableSchemas columns iter include exclude
  = fetchTableSchemas columns iter include' exclude'.
Proof.
  intros Hi He. rewrite !fetchTableSchemas_eq.
  destruct (firstFailure _ _ _); [done|]. do 2 f_equal.
  apply list_filter_iff. intros c. by apply selects_same_elements.
Qed.

Lemma selection_lists_are_sets_witness :
  (forall x : string, x ∈ ["A"; "B"] <-> x ∈ ["B"; "A"; "A"])
  /\ (forall x : string, x ∈ @nil string <-> x ∈ @nil string)
  /\ fetchTableSchemas Sample.tableColumnsOf
       (Build_RowIterator Sample.schemaABC None) ["A"; "B"] []
     = fetchTableSchemas Sample.tableColumnsOf
         (Build_RowIterator Sample.schemaABC None) ["B"; "A"; "A"] [].
Proof.
  assert (forall x : string, x ∈ ["A"; "B"] <-> x ∈ ["B"; "A"; "A"]) as Hi.
  { intros x. rewrite !elem_of_cons, !elem_of_nil. tauto. }
  assert (forall x : string, x ∈ @nil string <-> x ∈ @nil string) as He.
  { intros x. tauto. }
  split; [exact Hi|]. split; [exact He|].
  exact (selection_lists_are_sets Sample.tableColumnsOf
           (Build_RowIterator Sample.schemaABC None) _ _ _ _ Hi He).
Defined.

(** X3. With a non-empty exclude list the include list is never read: any
    two include lists give the same result, on every stream. *)
Theorem include_ignored_when_excluding {error Row : Type}
    (columns : Row -> error + tableColumns) (iter : RowIterator error Row)
    (include include' exclude : list string) :
  exclude <> [] ->
  fetchTableSchemas columns iter include exclude
  = fetchTableSchemas columns iter include' exclude.
Proof.
  intros He. rewrite !fetchTableSchemas_eq.
  destruct (firstFailure _ _ _); [done|]. do 2 f_equal.
  apply list_filter_iff. intros c. unfold selects. tauto.
Qed.

Lemma include_ignored_when_excluding_witness :
  ["C"] <> @nil string
  /\ fetchTableSchemas Sample.tableColumnsOf
       (Build_RowIterator Sample.schemaABC None) ["A"] ["C"]
     = fetchTableSchemas Sample.tableColumnsOf
         (Build_RowIterator Sample.schemaABC None) ["C"; "Z"] ["C"].
Proof.
  assert (["C"] <> @nil string) as He by discriminate.
  split; [exact He|].
  exact (include_ignored_when_excluding Sample.tableColumnsOf
           (Build_RowIterator Sample.schemaABC None) ["A"] ["C"; "Z"] ["C"] He).
Defined.

(** X4. Excluding only names that are no table of the stream selects every
    table, even beside an include list: the result is the one the two
    empty lists give. *)
Theorem excluding_unknown_selects_all {error Row : Type}
    (columns : Row -> error + tableColumns) (iter : RowIterator error Row)
    (include exclude : list string) :
  exclude <> [] ->
  Forall (fun name => name ∉ exclude)
    (colTableName <$> decoded columns (rows iter)) ->
  fetchTableSchemas columns iter include exclude
  = fetchTableSchemas columns iter [] [].
Proof.
  intros He Hnone. rewrite !fetchTableSchemas_eq.
  destruct (firstFailure _ _ _); [done|]. do 2 f_equal.
  rewrite filter_selects_all. apply filter_keep_all.
  rewrite Forall_fmap in Hnone. eapply Forall_impl; [exact Hnone|].
  intros c Hc. right; left. done.
Qed.

Lemma excluding_unknown_selects_all_witness :
  let iter := Build_RowIterator Sample.schemaABC None in
  ["Z"] <> @nil string
  /\ Forall (fun name => name ∉ ["Z"])
       (colTableName <$> decoded Sample.tableColumnsOf (rows iter))
  /\ fetchTableSchemas Sample.tableColumnsOf iter ["A"] ["Z"]
     = fetchTableSchemas Sample.tableColumnsOf iter [] [].
Proof.
  intros iter.
  assert (["Z"] <> @nil string) as He by discriminate.
  assert (Forall (fun name => name ∉ ["Z"])
            (colTableName <$> decoded Sample.tableColumnsOf (rows iter)))
    as Hnone.
  { vm_compute. repeat constructor;
      intros [?|[]%elem_of_nil]%elem_of_cons; discriminate. }
  split; [exact He|]. split; [exact Hnone|].
  exact (excluding_unknown_selects_all Sample.tableColumnsOf iter
           ["A"] ["Z"] He Hnone).
Defined.

(** X5. Including only names that are no table of the stream is no error:
    the slice is nil and the error is whatever the stream itself gives. *)
Theorem including_unknown_selects_none {error Row : Type}
    (columns : Row -> error + tableColumns) (iter : RowIterator error Row)
    (include : list string) :
  include <> [] ->
  Forall (fun name => name ∉ include)
    (colTableName <$> decoded columns (rows iter)) ->
  fetchTableSchemas columns iter include []
  = ([], (fetchTableSchemas columns iter [] []).2).
Proof.
  intros Hi Hnone. rewrite !fetchTableSchemas_eq.
  destruct (firstFailure _ _ _); [done|]. cbn [snd]. f_equal.
  rewrite filter_drop_all; [done|].
  rewrite Forall_fmap in Hnone. eapply Forall_impl; [exact Hnone|].
  intros c Hc. cbn in Hc.
  intros [[? _]|[[? _]|(_ & _ & ?)]]; done.
Qed.

Lemma including_unknown_selects_none_witness :
  let iter := Build_RowIterator Sample.schemaABC None in
  ["Z"] <> @nil string
  /\ Forall (fun name => name ∉ ["Z"])
       (colTableName <$> decoded Sample.tableColumnsOf (rows iter))
  /\ fetchTableSchemas Sample.tableColumnsOf iter ["Z"] []
     = ([], (fetchTableSchemas Sample.tableColumnsOf iter [] []).2).
Proof.
  intros iter.
  assert (["Z"] <> @nil string) as Hi by discriminate.
  assert (Forall (fun name => name ∉ ["Z"])
            (colTableName <$> decoded Sample.tableColumnsOf (rows iter)))
    as Hnone.
  { vm_compute. repeat constructor;
      intros [?|[]%elem_of_nil]%elem_of_cons; discriminate. }
  split; [exact Hi|]. split; [exact Hnone|].
  exact (including_unknown_selects_none Sample.tableColumnsOf iter
           ["Z"] Hi Hnone).
Defined.

Lemma selects_including (include : list string) (name : string) :
  include <> [] -> selects include [] name <-> name ∈ include.
Proof. intros Hi. unfold selects. split; [|by auto]. tauto. Qed.

Lemma selects_excluding (include exclude : list string) (name : string) :
  exclude <> [] -> selects include exclude name <-> name ∉ exclude.
Proof. intros He. unfold selects. split; [|by auto]. tauto. Qed.

Lemma subseteq_nonempty {A : Type} (l k : list A) :
  l <> [] -> l ⊆ k -> k <> [].
Proof.
  intros Hl Hsub ->. destruct l as [|x l]; [done|].
  eapply not_elem_of_nil, Hsub, list_elem_of_here.
Qed.

Lemma length_decoded {error Row C : Type} (columns : Row -> error + C)
    (rs : list Row) :
  length (decoded columns rs) <= length rs.
Proof.
  induction rs as [|r rs IH]; [done|].
  destruct (columns r) as [err|c] eqn:Hr.
  - rewrite (decoded_cons_bad _ _ _ _ Hr). cbn. lia.
  - rewrite (decoded_cons_ok _ _ _ _ Hr). cbn. lia.
Qed.

Lemma decoded_app_decodes {error Row C : Type} (columns : Row -> error + C)
    (rs1 rs2 : list Row) (cs1 : list C) :
  decodesTo columns rs1 cs1 ->
  decoded columns (rs1 ++ rs2) = cs1 ++ decoded columns rs2.
Proof.
  intros Hdec. unfold decoded. rewrite omap_app. f_equal.
  by apply decodesTo_decoded.
Qed.

Lemma firstFailure_app_decodes {error Row C : Type}
    (columns : Row -> error + C) (rs1 rs2 : list Row) (cs1 : list C) fin :
  decodesTo columns rs1 cs1 ->
  firstFailure columns (rs1 ++ rs2) fin = firstFailure columns rs2 fin.
Proof.
  induction 1 as [|r c rs cs Hr _ IH]; [done|]. cbn. by rewrite Hr.
Qed.

(** X6. Excluding more tables never adds one: when the exclude list
    grows, the result is a sublist of the earlier one, whatever the
    include lists are. *)
Theorem excluding_more_selects_fewer {error Row : Type}
    (columns : Row -> error + tableColumns) (iter : RowIterator error Row)
    (include include' exclude exclude' : list string) :
  exclude <> [] ->
  exclude ⊆ exclude' ->
  (fetchTableSchemas columns iter include' exclude').1
  `sublist_of` (fetchTableSchemas columns iter include exclude).1.
Proof.
  intros He Hsub. pose proof (subseteq_nonempty _ _ He Hsub) as He'.
  rewrite !fetchTableSchemas_eq.
  destruct (firstFailure _ _ _); [done|]. cbn [fst].
  apply fmap_sublist, filter_sublist_mono. intros c.
  rewrite !selects_excluding by done. intros Hc Hin. by apply Hc, Hsub.
Qed.

Lemma excluding_more_selects_fewer_witness :
  let iter := Build_RowIterator Sample.schemaABC None in
  ["C"] <> @nil string
  /\ ["C"] ⊆ ["B"; "C"]
  /\ (fetchTableSchemas Sample.tableColumnsOf iter [] ["B"; "C"]).1
     `sublist_of` (fetchTableSchemas Sample.tableColumnsOf iter ["A"] ["C"]).1.
Proof.
  intros iter.
  assert (["C"] <> @nil string) as He by discriminate.
  assert (["C"] ⊆ ["B"; "C"]) as Hsub.
  { intros x Hx. by apply list_elem_of_further. }
  split; [exact He|]. split; [exact Hsub|].
  exact (excluding_more_selects_fewer Sample.tableColumnsOf iter
           ["A"] [] ["C"] ["B"; "C"] He Hsub).
Defined.

(** X7. Including more tables never drops one: without an exclude list,
    when the include list grows, the earlier result is a sublist of the
    new one. *)
Theorem including_more_selects_more {error Row : Type}
    (columns : Row -> error + tableColumns) (iter : RowIterator error Row)
    (include include' : list string) :
  include <> [] ->
  include ⊆ include' ->
  (fetchTableSchemas columns iter include []).1
  `sublist_of` (fetchTableSchemas columns iter include' []).1.
Proof.
  intros Hi Hsub. pose proof (subseteq_nonempty _ _ Hi Hsub) as Hi'.
  rewrite !fetchTableSchemas_eq.
  destruct (firstFailure _ _ _); [done|]. cbn [fst].
  apply fmap_sublist, filter_sublist_mono. intros c.
  rewrite !selects_including by done. apply Hsub.
Qed.

Lemma including_more_selects_more_witness :
  let iter := Build_RowIterator Sample.schemaABC None in
  ["C"] <> @nil string
  /\ ["C"] ⊆ ["B"; "C"]
  /\ (fetchTableSchemas Sample.tableColumnsOf iter ["C"] []).1
     `sublist_of` (fetchTableSchemas Sample.tableColumnsOf iter ["B"; "C"] []).1.
Proof.
  intros iter.
  assert (["C"] <> @nil string) as Hi by discriminate.
  assert (["C"] ⊆ ["B"; "C"]) as Hsub.
  { intros x Hx. by apply list_elem_of_further. }
  split; [exact Hi|]. split; [exact Hsub|].
  exact (including_more_selects_more Sample.tableColumnsOf iter
           ["C"] ["B"; "C"] Hi Hsub).
Defined.

(** X8. Including a list and excluding the same list split the schema:
    for a non-empty list of names, the tables returned with it as the
    include list and those returned with it as the exclude list make up,
    together, the tables the two empty lists return. *)
Theorem include_exclude_partition {error Row : Type}
    (columns : Row -> error + tableColumns) (iter : RowIterator error Row)
    (names : list string) :
  names <> [] ->
  (fetchTableSchemas columns iter names []).1
  ++ (fetchTableSchemas columns iter [] names).1
  ≡ₚ (fetchTableSchemas columns iter [] []).1.
Proof.
  intros Hne. rewrite !fetchTableSchemas_eq.
  destruct (firstFailure _ _ _); [done|]. cbn [fst].
  rewrite filter_selects_all, <- fmap_app.
  rewrite (list_filter_iff
             (fun c => selects names [] (colTableName c))
             (fun c => colTableName c ∈ names))
    by (intros c; by apply selects_including).
  rewrite (list_filter_iff
             (fun c => selects [] names (colTableName c))
             (fun c => ~ colTableName c ∈ names))
    by (intros c; by apply selects_excluding).
  by rewrite filter_app_complement.
Qed.

Lemma include_exclude_partition_witness :
  let iter := Build_RowIterator Sample.schemaABC None in
  ["B"] <> @nil string
  /\ (fetchTableSchemas Sample.tableColumnsOf iter ["B"] []).1
     ++ (fetchTableSchemas Sample.tableColumnsOf iter [] ["B"]).1
     ≡ₚ (fetchTableSchemas Sample.tableColumnsOf iter [] []).1.
Proof.
  intros iter.
  assert (["B"] <> @nil string) as Hne by discriminate.
  split; [exact Hne|].
  exact (include_exclude_partition Sample.tableColumnsOf iter ["B"] Hne).
Defined.

Lemma NoDup_fmap_inj_on {A B : Type} (f : A -> B) (l : list A) (x y : A) :
  NoDup (f <$> l) -> x ∈ l -> y ∈ l -> f x = f y -> x = y.
Proof.
  induction l as [|a l IH]; intros Hnd Hx Hy Hxy.
  - by apply elem_of_nil in Hx.
  - rewrite fmap_cons in Hnd. apply NoDup_cons in Hnd as [Ha Hnd].
    apply elem_of_cons in Hx as [->|Hx], Hy as [->|Hy]; [done| | |by apply IH].
    + exfalso. apply Ha. rewrite Hxy. by apply list_elem_of_fmap_2.
    + exfalso. apply Ha. rewrite <- Hxy. by apply list_elem_of_fmap_2.
Qed.

(** X9. At most one descriptor per row: the slice is never longer than the
    stream, and when the table names of the stream are pairwise distinct
    so are the names of the descriptors returned. *)
Theorem unique_names_stay_unique {error Row : Type}
    (columns : Row -> error + tableColumns) (iter : RowIterator error Row)
    (include exclude : list string) :
  length (fetchTableSchemas columns iter include exclude).1
  <= length (rows iter)
  /\ (NoDup (colTableName <$> decoded columns (rows iter)) ->
      NoDup (tableName <$> (fetchTableSchemas columns iter include exclude).1)).
Proof.
  pose proof (fetchTableSchemas_names_sublist columns iter include exclude)
    as Hsub.
  split.
  - apply sublist_length in Hsub. rewrite !length_fmap in Hsub.
    pose proof (length_decoded columns (rows iter)). lia.
  - intros Hnd. by eapply sublist_NoDup.
Qed.

Lemma unique_names_stay_unique_witness :
  let iter := Build_RowIterator Sample.schemaABC None in
  NoDup (colTableName <$> decoded Sample.tableColumnsOf (rows iter))
  /\ NoDup (tableName <$>
              (fetchTableSchemas Sample.tableColumnsOf iter [] ["B"]).1)
  /\ length (fetchTableSchemas Sample.tableColumnsOf iter [] ["B"]).1
     <= length (rows iter).
Proof.
  intros iter.
  assert (NoDup (colTableName <$> decoded Sample.tableColumnsOf (rows iter)))
    as Hnd.
  { vm_compute. apply (bool_decide_unpack _). vm_compute. exact I. }
  destruct (unique_names_stay_unique Sample.tableColumnsOf iter [] ["B"])
    as [Hlen Hout].
  split; [exact Hnd|]. split; [exact (Hout Hnd) | exact Hlen].
Defined.

(** X10. Selection changes which descriptors are present, never what they
    hold: every descriptor returned has the table name, the parent name
    and the [referencedBy] list of a selected row of the stream, copied
    whether or not the tables they name are selected; and on a stream
    with pairwise distinct table names, two calls with any selection lists
    return the same descriptor for a table both return. *)
Theorem descriptor_independent_of_selection {error Row : Type}
    (columns : Row -> error + tableColumns) (iter : RowIterator error Row)
    (include exclude include' exclude' : list string) :
  Forall
    (fun d => exists c,
       c ∈ decoded columns (rows iter)
       /\ selects include exclude (colTableName c)
       /\ tableName d = colTableName c
       /\ parentTableName d
          = (if Valid (colParent c) then StringVal (colParent c) else "")
       /\ referencedBy d = colReferencedBy c)
    (fetchTableSchemas columns iter include exclude).1
  /\ (NoDup (colTableName <$> decoded columns (rows iter)) ->
      forall d d',
        d ∈ (fetchTableSchemas columns iter include exclude).1 ->
        d' ∈ (fetchTableSchemas columns iter include' exclude').1 ->
        tableName d = tableName d' ->
        d = d').
Proof.
  split.
  - apply Forall_forall. intros d Hd.
    apply elem_of_fetchTableSchemas in Hd as (c & Hc & Hsel & ->).
    by exists c.
  - intros Hnd d d' (c & Hc & _ & ->)%elem_of_fetchTableSchemas
      (c' & Hc' & _ & ->)%elem_of_fetchTableSchemas Hname.
    f_equal. by eapply (NoDup_fmap_inj_on colTableName).
Qed.

Lemma descriptor_independent_of_selection_witness :
  let iter := Build_RowIterator Sample.schemaABC None in
  NoDup (colTableName <$> decoded Sample.tableColumnsOf (rows iter))
  /\ Sample.tableA ∈ (fetchTableSchemas Sample.tableColumnsOf iter [] ["C"]).1
  /\ Sample.tableA ∈ (fetchTableSchemas Sample.tableColumnsOf iter [] []).1
  /\ tableName Sample.tableA = tableName Sample.tableA
  /\ Sample.tableA = Sample.tableA
  /\ Forall
       (fun d => exists c,
          c ∈ decoded Sample.tableColumnsOf (rows iter)
          /\ selects [] ["C"] (colTableName c)
          /\ tableName d = colTableName c
          /\ parentTableName d
             = (if Valid (colParent c) then StringVal (colParent c) else "")
          /\ referencedBy d = colReferencedBy c)
       (fetchTableSchemas Sample.tableColumnsOf iter [] ["C"]).1.
Proof.
  intros iter.
  assert (NoDup (colTableName <$> decoded Sample.tableColumnsOf (rows iter)))
    as Hnd.
  { vm_compute. apply (bool_decide_unpack _). vm_compute. exact I. }
  assert (Sample.tableA
          ∈ (fetchTableSchemas Sample.tableColumnsOf iter [] ["C"]).1) as HA.
  { vm_compute. apply list_elem_of_here. }
  assert (Sample.tableA
          ∈ (fetchTableSchemas Sample.tableColumnsOf iter [] []).1) as HA'.
  { vm_compute. apply list_elem_of_here. }
  destruct (descriptor_independent_of_selection Sample.tableColumnsOf iter
              [] ["C"] [] []) as [Hcopied Hsame].
  split; [exact Hnd|]. split; [exact HA|]. split; [exact HA'|].
  split; [reflexivity|]. split; [|exact Hcopied].
  exact (Hsame Hnd Sample.tableA Sample.tableA HA HA' eq_refl).
Defined.

(** X11. Reading in two batches: when the first part of a stream decodes,
    the result on the whole stream is the result on the first part
    followed by the result on the rest, and a failure in the rest is the
    failure of the whole; so for the index pass. *)
Theorem fetch_app {error Row : Type}
    (tableRowColumns : Row -> error + tableColumns)
    (indexRowColumns : Row -> error + indexColumns)
    (tableRows1 tableRows2 indexRows1 indexRows2 : list Row)
    (tableCols1 : list tableColumns) (indexCols1 : list indexColumns)
    (tableFin indexFin : option error) (include exclude : list string) :
  decodesTo tableRowColumns tableRows1 tableCols1 ->
  decodesTo indexRowColumns indexRows1 indexCols1 ->
  fetchTableSchemas tableRowColumns
    (Build_RowIterator (tableRows1 ++ tableRows2) tableFin) include exclude
  = match fetchTableSchemas tableRowColumns
            (Build_RowIterator tableRows2 tableFin) include exclude with
    | (tables2, None) =>
        ((fetchTableSchemas tableRowColumns
            (Build_RowIterator tableRows1 None) include exclude).1 ++ tables2,
         None)
    | (_, Some err) => ([], Some err)
    end
  /\ fetchIndexSchemas indexRowColumns
       (Build_RowIterator (indexRows1 ++ indexRows2) indexFin)
     = match fetchIndexSchemas indexRowColumns
               (Build_RowIterator indexRows2 indexFin) with
       | (indexes2, None) =>
           ((fetchIndexSchemas indexRowColumns
               (Build_RowIterator indexRows1 None)).1 ++ indexes2, None)
       | (_, Some err) => ([], Some err)
       end.
Proof.
  intros HT HI. rewrite !fetchTableSchemas_eq, !fetchIndexSchemas_eq.
  cbn [rows final].
  rewrite (firstFailure_app_decodes _ _ _ _ _ HT).
  rewrite (firstFailure_app_decodes _ _ _ _ _ HI).
  rewrite (decodesTo_firstFailure _ _ _ _ HT).
  rewrite (decodesTo_firstFailure _ _ _ _ HI).
  rewrite (decoded_app_decodes _ _ _ _ HT), (decoded_app_decodes _ _ _ _ HI).
  rewrite (decodesTo_decoded _ _ _ HT), (decodesTo_decoded _ _ _ HI).
  split.
  - destruct (firstFailure _ tableRows2 _); [done|]. cbn [fst].
    by rewrite filter_app, fmap_app.
  - destruct (firstFailure _ indexRows2 _); [done|]. cbn [fst].
    by rewrite fmap_app.
Qed.

Lemma fetch_app_witness :
  decodesTo Sample.tableColumnsOf [Sample.rowA]
    [ {| colTableName := "A";
         colParent := {| StringVal := ""; Valid := false |};
         colDeleteAction := {| StringVal := ""; Valid := false |};
         colReferencedBy := ["C"] |} ]
  /\ decodesTo Sample.indexColumnsOf Sample.indexRows Sample.indexCols
  /\ fetchTableSchemas Sample.tableColumnsOf
       (Build_RowIterator ([Sample.rowA] ++ [Sample.rowB; Sample.rowC]) None)
       [] ["B"]
     = ([Sample.tableA; Sample.tableC], None)
  /\ fetchIndexSchemas Sample.indexColumnsOf
       (Build_RowIterator (Sample.indexRows ++ [Sample.rowBad]) None)
     = ([], Some Sample.NumOfColValue).
Proof.
  assert (decodesTo Sample.tableColumnsOf [Sample.rowA]
            [ {| colTableName := "A";
                 colParent := {| StringVal := ""; Valid := false |};
                 colDeleteAction := {| StringVal := ""; Valid := false |};
                 colReferencedBy := ["C"] |} ]) as HT.
  { repeat constructor. }
  assert (decodesTo Sample.indexColumnsOf Sample.indexRows Sample.indexCols)
    as HI.
  { repeat constructor. }
  destruct (fetch_app Sample.tableColumnsOf Sample.indexColumnsOf
              [Sample.rowA] [Sample.rowB; Sample.rowC]
              Sample.indexRows [Sample.rowBad] _ _ None None [] ["B"] HT HI)
    as [-> ->].
  split; [exact HT|]. split; [exact HI|]. split; vm_compute; reflexivity.
Defined.

(** X12. The two maps hold the two lists: a name is a key of [targets],
    of [excludes], exactly when the list names it, always with the value
    [true]; [excludes] has length 0 exactly when the exclude list is empty;
    and [truncateAll] stays set exactly when both lists are empty. *)
Theorem selection_maps_hold_the_lists (targetTables excludeTables : list string) :
  let sel := newSelection targetTables excludeTables in
  (truncateAll sel = true <-> targetTables = [] /\ excludeTables = [])
  /\ (forall k v, targets sel !! k = Some v <-> k ∈ targetTables /\ v = true)
  /\ (forall k v, excludes sel !! k = Some v <-> k ∈ excludeTables /\ v = true)
  /\ (size (excludes sel) = 0 <-> excludeTables = []).
Proof.
  assert (forall names k v,
            markAll names ∅ !! k = Some v <-> k ∈ names /\ v = true) as Hmark.
  { intros names k v. rewrite markAll_lookup, lookup_empty.
    case_decide; split; try done.
    - intros [= <-]. done.
    - intros [_ ->]. done.
    - intros [? _]. done. }
  destruct (decide (targetTables = [] /\ excludeTables = [])) as [[-> ->]|Hne].
  - change (newSelection [] [])
      with {| truncateAll := true;
              targets := markAll [] ∅;
              excludes := markAll [] ∅ |}.
    cbn [truncateAll targets excludes]. split; [done|].
    split; [apply Hmark|]. split; [apply Hmark|]. apply markAll_size.
  - rewrite newSelection_nonempty.
    + cbn [truncateAll targets excludes]. split; [split; done|].
      split; [apply Hmark|]. split; [apply Hmark|]. apply markAll_size.
    + destruct targetTables, excludeTables; auto; by destruct Hne.
Qed.

(** X13. All or nothing: what either function returns is the nil slice
    beside an error, or no error beside the descriptors of the whole
    stream, one per row for the index pass and one per selected row for the
    table pass; never the descriptors of a prefix of the stream. *)
Theorem fetch_all_or_nothing {error Row : Type}
    (tableRowColumns : Row -> error + tableColumns)
    (indexRowColumns : Row -> error + indexColumns)
    (tableIter indexIter : RowIterator error Row)
    (include exclude : list string) :
  ((exists err,
      fetchTableSchemas tableRowColumns tableIter include exclude
      = ([], Some err))
   \/ (exists cs,
         decodesTo tableRowColumns (rows tableIter) cs
         /\ fetchTableSchemas tableRowColumns tableIter include exclude
            = (newTableSchema <$>
                 filter (fun c => selects include exclude (colTableName c)) cs,
               None)))
  /\ ((exists err,
         fetchIndexSchemas indexRowColumns indexIter = ([], Some err))
      \/ (exists cs,
            decodesTo indexRowColumns (rows indexIter) cs
            /\ fetchIndexSchemas indexRowColumns indexIter
               = (newIndexSchema <$> cs, None)
            /\ length (fetchIndexSchemas indexRowColumns indexIter).1
               = length (rows indexIter))).
Proof.
  rewrite fetchTableSchemas_eq, fetchIndexSchemas_eq. split.
  - destruct (firstFailure _ _ _) as [err|] eqn:Hff; [left; by exists err|].
    right. apply firstFailure_None in Hff as [Hdec _].
    by exists (decoded tableRowColumns (rows tableIter)).
  - destruct (firstFailure _ _ _) as [err|] eqn:Hff; [left; by exists err|].
    right. apply firstFailure_None in Hff as [Hdec _].
    exists (decoded indexRowColumns (rows indexIter)).
    split; [done|]. split; [done|]. cbn [fst]. rewrite length_fmap.
    symmetry. by eapply Forall2_length.
Qed.

Lemma filter_newTableSchema (P : string -> Prop) `{!forall n, Decision (P n)}
    (cs : list tableColumns) :
  filter (fun d => P (tableName d)) (newTableSchema <$> cs)
  = newTableSchema <$> filter (fun c => P (colTableName c)) cs.
Proof.
  induction cs as [|c cs IH]; [done|].
  rewrite fmap_cons, !filter_cons. cbn [newTableSchema tableName].
  destruct (decide (P (colTableName c))); by rewrite IH.
Qed.

(** X14. Selecting while reading is selecting afterwards: the result for
    any two lists is the result for the two empty lists, filtered by the
    policy on [tableName], with the same error. *)
Theorem selection_commutes_with_fetch {error Row : Type}
    (columns : Row -> error + tableColumns) (iter : RowIterator error Row)
    (include exclude : list string) :
  fetchTableSchemas columns iter include exclude
  = (filter (fun d => selects include exclude (tableName d))
       (fetchTableSchemas columns iter [] []).1,
     (fetchTableSchemas columns iter [] []).2).
Proof.
  rewrite !fetchTableSchemas_eq.
  destruct (firstFailure _ _ _); [done|]. cbn [fst snd].
  rewrite filter_selects_all.
  by rewrite (filter_newTableSchema (selects include exclude)).
Qed.
